(** * compactImg: the upload and process handlers and the client file list

    A shallow embedding of
    - [src/app/types.ts] (the record types),
    - [src/app/api/upload/route.ts] (the upload handler),
    - the process handler ([POST] of the [/api/process] route), and
    - [handleFilesUploaded] of the page component,
    followed by the properties of these functions.

    JavaScript numbers are IEEE 754 binary64 values; they are modelled by
    [spec_float] with the operations of [SpecFloat] at precision 53 and
    maximal exponent 1024, so that [/], [-], [*] round as they do in the
    engine.  The object store, the image codec, the clock and the id
    generator are collaborators of the handlers: each is a field of a
    [World] record, and the handlers are functions of the world. *)

From Stdlib Require Import ZArith SpecFloat Ascii.
From stdpp Require Import base list strings gmap pretty.

Open Scope Z_scope.

(** ** JavaScript numbers *)

Module JsNumber.

Definition number : Type := spec_float.

Definition prec : Z := 53.
Definition emax : Z := 1024.

(** The number denoted by an integer literal, or by an integer-valued
    property such as [byteLength]. *)
Definition of_Z (z : Z) : number := binary_normalize prec emax z 0 false.

Definition add : number → number → number := SFadd prec emax.
Definition sub : number → number → number := SFsub prec emax.
Definition mul : number → number → number := SFmul prec emax.
Definition div : number → number → number := SFdiv prec emax.

(** [x < y] and [x > y]; both are false when an operand is NaN. *)
Definition ltb (x y : number) : bool := SFltb x y.
Definition gtb (x y : number) : bool := SFltb y x.

Definition is_nan (x : number) : bool :=
  match x with S754_nan => true | _ => false end.

Definition is_neg_zero (x : number) : bool :=
  match x with S754_zero true => true | _ => false end.

Definition is_pos_zero (x : number) : bool :=
  match x with S754_zero false => true | _ => false end.

(** [Math.max(x, y)]: NaN if an operand is NaN; [+0] counts as larger
    than [-0]. *)
Definition Math_max (x y : number) : number :=
  if is_nan x || is_nan y then S754_nan
  else if is_neg_zero x && is_pos_zero y then y
  else if ltb x y then y else x.

(** [Math.min(x, y)]: NaN if an operand is NaN; [-0] counts as smaller
    than [+0]. *)
Definition Math_min (x y : number) : number :=
  if is_nan x || is_nan y then S754_nan
  else if is_pos_zero x && is_neg_zero y then y
  else if ltb y x then y else x.

(** [Math.round(x)]: the integer closest to [x], ties towards [+∞];
    NaN, the infinities, the zeros and integral values are returned as
    they are; a result of zero keeps the sign of [x]. *)
Definition Math_round (x : number) : number :=
  match x with
  | S754_finite s m e =>
      if 0 <=? e then x
      else
        let d := 2 ^ (- e) in
        let v := if s then Z.neg m else Z.pos m in
        let n := (2 * v + d) `div` (2 * d) in
        if n =? 0 then S754_zero s else of_Z n
  | _ => x
  end.

End JsNumber.

Import JsNumber.

(** ** JavaScript strings *)

Module JsString.

(** [s.split(sep)] for a separator of one character. *)
Fixpoint split (sep : Ascii.ascii) (s : string) : list string :=
  match s with
  | EmptyString => [EmptyString]
  | String c s' =>
      if Ascii.eqb c sep then EmptyString :: split sep s'
      else match split sep s' with
           | [] => [String c EmptyString]
           | h :: t => String c h :: t
           end
  end.

(** [s.includes(c)] for a string [c] of one character. *)
Fixpoint includes (c : Ascii.ascii) (s : string) : bool :=
  match s with
  | EmptyString => false
  | String c' s' => Ascii.eqb c' c || includes c s'
  end.

(** [parts.join(sep)]. *)
Fixpoint join (sep : string) (parts : list string) : string :=
  match parts with
  | [] => ""
  | [p] => p
  | p :: rest => p +:+ sep +:+ join sep rest
  end.

(** A string is truthy when it is not empty. *)
Definition truthy (s : string) : bool :=
  match s with EmptyString => false | _ => true end.

(** How a template literal prints a value that may be [undefined]. *)
Definition show (o : option string) : string := default "undefined" o.

End JsString.


(** ** The record types of [src/app/types.ts]

    An optional property ([name?: T]) is an [option]; [None] is a property
    that is absent (or [undefined], which JSON does not transmit). *)

Module ImageMetadata.
Record t : Type := mk {
  title : option string;
  description : option string;
  author : option string;
  copyright : option string;
  keywords : option (list string);
  customFields : option (list (string * string));
}.

(** The object literal [{}]. *)
Definition empty : t := mk None None None None None None.
End ImageMetadata.

Inductive TargetFormat : Type :=
  | jpeg | png | webp | avif | original.

Definition TargetFormat_to_string (f : TargetFormat) : string :=
  match f with
  | jpeg => "jpeg" | png => "png" | webp => "webp" | avif => "avif"
  | original => "original"
  end.

Module Resize.
Record t : Type := mk {
  maxWidth : option number;
  maxHeight : option number;
}.
End Resize.

(** [CompressionSettings & { metadata: ImageMetadata }], the type of the
    [settings] of a process request. *)
Module CompressionSettings.
Record t : Type := mk {
  quality : number;
  targetFormat : TargetFormat;
  stripMetadata : option bool;
  preserveMetadata : option bool;
  resize : option Resize.t;
  metadata : ImageMetadata.t;
}.
End CompressionSettings.

Inductive Status : Type :=
  | uploaded | queued | processing | completed | failed.

(** The values of [Record<string, any>]. *)
#[local] Unset Elimination Schemes.
Inductive Json : Type :=
  | JNull
  | JBool (b : bool)
  | JNumber (n : number)
  | JString (s : string)
  | JArray (items : list Json)
  | JObject (members : list (string * Json)).
#[local] Set Elimination Schemes.

Module ImageFile.
Record t : Type := mk {
  id : string;
  originalName : string;
  originalSize : number;
  originalFormat : string;
  compressedSize : option number;
  compressionRatio : option number;
  status : Status;
  metadata : ImageMetadata.t;
  originalMetadata : option (list (string * Json));
  processingSettings : option CompressionSettings.t;
  downloadUrl : option string;
  errorMessage : option string;
  processingTimeMs : option number;
  blobUrl : option string;
}.
End ImageFile.

(** [Partial<ImageFile>]: every property may be absent. *)
Module PartialImageFile.
Record t : Type := mk {
  id : option string;
  originalName : option string;
  originalSize : option number;
  originalFormat : option string;
  compressedSize : option number;
  compressionRatio : option number;
  status : option Status;
  metadata : option ImageMetadata.t;
  originalMetadata : option (list (string * Json));
  processingSettings : option CompressionSettings.t;
  downloadUrl : option string;
  errorMessage : option string;
  processingTimeMs : option number;
  blobUrl : option string;
}.

(** The object literal [{}]. *)
Definition empty : t :=
  mk None None None None None None None None None None None None None None.

(** The assignments [u.status = v], [u.metadata = v], ... *)
Definition set_status (v : Status) (u : t) : t :=
  mk (id u) (originalName u) (originalSize u) (originalFormat u)
     (compressedSize u) (compressionRatio u) (Some v) (metadata u)
     (originalMetadata u) (processingSettings u) (downloadUrl u)
     (errorMessage u) (processingTimeMs u) (blobUrl u).
Definition set_metadata (v : ImageMetadata.t) (u : t) : t :=
  mk (id u) (originalName u) (originalSize u) (originalFormat u)
     (compressedSize u) (compressionRatio u) (status u) (Some v)
     (originalMetadata u) (processingSettings u) (downloadUrl u)
     (errorMessage u) (processingTimeMs u) (blobUrl u).
Definition set_compressedSize (v : number) (u : t) : t :=
  mk (id u) (originalName u) (originalSize u) (originalFormat u)
     (Some v) (compressionRatio u) (status u) (metadata u)
     (originalMetadata u) (processingSettings u) (downloadUrl u)
     (errorMessage u) (processingTimeMs u) (blobUrl u).
Definition set_compressionRatio (v : number) (u : t) : t :=
  mk (id u) (originalName u) (originalSize u) (originalFormat u)
     (compressedSize u) (Some v) (status u) (metadata u)
     (originalMetadata u) (processingSettings u) (downloadUrl u)
     (errorMessage u) (processingTimeMs u) (blobUrl u).
Definition set_downloadUrl (v : string) (u : t) : t :=
  mk (id u) (originalName u) (originalSize u) (originalFormat u)
     (compressedSize u) (compressionRatio u) (status u) (metadata u)
     (originalMetadata u) (processingSettings u) (Some v)
     (errorMessage u) (processingTimeMs u) (blobUrl u).
Definition set_errorMessage (v : string) (u : t) : t :=
  mk (id u) (originalName u) (originalSize u) (originalFormat u)
     (compressedSize u) (compressionRatio u) (status u) (metadata u)
     (originalMetadata u) (processingSettings u) (downloadUrl u)
     (Some v) (processingTimeMs u) (blobUrl u).
Definition set_processingTimeMs (v : number) (u : t) : t :=
  mk (id u) (originalName u) (originalSize u) (originalFormat u)
     (compressedSize u) (compressionRatio u) (status u) (metadata u)
     (originalMetadata u) (processingSettings u) (downloadUrl u)
     (errorMessage u) (Some v) (blobUrl u).
Definition set_processingSettings (v : CompressionSettings.t) (u : t) : t :=
  mk (id u) (originalName u) (originalSize u) (originalFormat u)
     (compressedSize u) (compressionRatio u) (status u) (metadata u)
     (originalMetadata u) (Some v) (downloadUrl u)
     (errorMessage u) (processingTimeMs u) (blobUrl u).
End PartialImageFile.

(** The object spread [{ ...imageFile, ...updatedImageFile }]: a property
    of the second object, when present, replaces that of the first. *)
Definition spread (imageFile : ImageFile.t) (u : PartialImageFile.t) : ImageFile.t :=
  let over {A} (new : option A) (old : option A) : option A :=
    match new with Some v => Some v | None => old end in
  ImageFile.mk
    (default (ImageFile.id imageFile) (PartialImageFile.id u))
    (default (ImageFile.originalName imageFile) (PartialImageFile.originalName u))
    (default (ImageFile.originalSize imageFile) (PartialImageFile.originalSize u))
    (default (ImageFile.originalFormat imageFile) (PartialImageFile.originalFormat u))
    (over (PartialImageFile.compressedSize u) (ImageFile.compressedSize imageFile))
    (over (PartialImageFile.compressionRatio u) (ImageFile.compressionRatio imageFile))
    (default (ImageFile.status imageFile) (PartialImageFile.status u))
    (default (ImageFile.metadata imageFile) (PartialImageFile.metadata u))
    (over (PartialImageFile.originalMetadata u) (ImageFile.originalMetadata imageFile))
    (over (PartialImageFile.processingSettings u) (ImageFile.processingSettings imageFile))
    (over (PartialImageFile.downloadUrl u) (ImageFile.downloadUrl imageFile))
    (over (PartialImageFile.errorMessage u) (ImageFile.errorMessage imageFile))
    (over (PartialImageFile.processingTimeMs u) (ImageFile.processingTimeMs imageFile))
    (over (PartialImageFile.blobUrl u) (ImageFile.blobUrl imageFile)).

(** ** What a handler can throw, and what it answers *)

(** A thrown value is an [Error] with its message, or some other value. *)
Inductive Thrown : Type :=
  | ErrorObject (message : string)
  | OtherValue.

(** [Buffer] and [ArrayBuffer]: the bytes. *)
Definition Buffer : Type := list Byte.byte.

Definition byteLength (b : Buffer) : number := of_Z (Z.of_nat (length b)).

(** The result of [put] (the properties the handlers read). *)
Module PutBlobResult.
Record t : Type := mk {
  url : string;
  pathname : string;
}.
End PutBlobResult.

(** ** The process handler *)

Module Process.

(** *** The collaborators *)

(** The [Response] of [fetch]: the properties [fetchBlob] reads. *)
Module FetchResponse.
Record t : Type := mk {
  ok : bool;
  statusText : string;
  arrayBuffer : Thrown + Buffer;
}.
End FetchResponse.

(** The codec pipeline that the calls on a [sharp] instance build up:
    the input, the output format with its option, and the tags. *)
Inductive OutputOptions : Type :=
  | JpegOptions (quality : number)
  | PngOptions (compressionLevel : number).

Module IFD0.
Record t : Type := mk {
  ImageDescription : option string;
  UserComment : option string;
}.
Definition empty : t := mk None None.
End IFD0.

(** [sharp.WriteableMetadata], of which the handler sets [exif.IFD0]. *)
Module WriteableMetadata.
Record t : Type := mk { exif : option IFD0.t }.
Definition empty : t := mk None.
(** [Object.keys(m).length] *)
Definition keys_length (m : t) : Z :=
  match exif m with Some _ => 1 | None => 0 end.
End WriteableMetadata.

Module SharpInstance.
Record t : Type := mk {
  input : Buffer;
  output : option OutputOptions;
  withMetadata : option WriteableMetadata.t;
}.
End SharpInstance.

Module PutOptions.
Record t : Type := mk {
  access : string;
  contentType : string;
  cacheControlMaxAge : Z;
}.
End PutOptions.

(** The world of one request.  A call of the codec library either
    throws or not ([_throws] gives the thrown value); [toBuffer] and
    [put] give their result. *)
Record World : Type := {
  fetch : string → Thrown + FetchResponse.t;
  Date_now : nat → number;
  sharp_throws : Buffer → option Thrown;
  jpeg_throws : number → option Thrown;
  png_throws : number → option Thrown;
  withMetadata_throws : WriteableMetadata.t → option Thrown;
  toBuffer : SharpInstance.t → Thrown + Buffer;
  put : string → Buffer → PutOptions.t → Thrown + PutBlobResult.t;
}.

(** The calls that leave the handler, in the order they are made. *)
Inductive Call : Type :=
  | CallFetch (url : string)
  | CallToBuffer (instance : SharpInstance.t)
  | CallPut (pathname : string) (body : Buffer) (options : PutOptions.t).

(** *** The body of [try]: state and exceptions

    The state is the object [updatedImageFile], which the [catch]
    clause reads as the body left it, and the calls made so far.  A
    thrown value is tagged with the step that threw it; the tag is read
    by no code. *)

Inductive Step : Type :=
  | StepFetch | StepFormat | StepPipeline | StepEncode | StepStore.

Record State : Type := {
  updatedImageFile : PartialImageFile.t;
  calls : list Call;
}.

Definition Try (A : Type) : Type := State → (Step * Thrown + A) * State.

#[export] Instance Try_ret : MRet Try := λ A a st, (inr a, st).

#[export] Instance Try_bind : MBind Try := λ A B f m st,
  match m st with
  | (inl e, st') => (inl e, st')
  | (inr a, st') => f a st'
  end.

Definition throw {A : Type} (step : Step) (e : Thrown) : Try A :=
  λ st, (inl (step, e), st).

Definition assign (f : PartialImageFile.t → PartialImageFile.t) : Try unit :=
  λ st, (inr (), {| updatedImageFile := f (updatedImageFile st); calls := calls st |}).

Definition record_call (c : Call) : Try unit :=
  λ st, (inr (), {| updatedImageFile := updatedImageFile st; calls := calls st ++ [c] |}).

Definition read : Try PartialImageFile.t :=
  λ st, (inr (updatedImageFile st), st).

Definition returned {A : Type} (step : Step) (r : Thrown + A) : Try A :=
  match r with inl e => throw step e | inr a => mret a end.

Definition may_throw (step : Step) (r : option Thrown) : Try unit :=
  match r with Some e => throw step e | None => mret () end.

(** *** [fetchBlob] *)

Definition fetchBlob (w : World) (url : string) : Try Buffer :=
  record_call (CallFetch url);;
  response ← returned StepFetch (fetch w url);
  if negb (FetchResponse.ok response) then
    throw StepFetch
      (ErrorObject ("Failed to fetch blob: " +:+ FetchResponse.statusText response))
  else
    returned StepFetch (FetchResponse.arrayBuffer response).

(** *** The handler *)

Definition MVP_PROCESS_FORMATS : list string := ["jpeg"; "png"].

(** [formats.includes(x)], where [x] may be [undefined]. *)
Definition includes (formats : list string) (x : option string) : bool :=
  match x with
  | Some s => bool_decide (s ∈ formats)
  | None => false
  end.

(** The constant [targetFormat] of the handler: the subtype of the
    original MIME type for [original], the requested format otherwise.
    Indexing past the end of the array gives [undefined]. *)
Definition effectiveTargetFormat
    (imageFile : ImageFile.t) (settings : CompressionSettings.t) : option string :=
  match CompressionSettings.targetFormat settings with
  | original => JsString.split "/"%char (ImageFile.originalFormat imageFile) !! 1%nat
  | requested => Some (TargetFormat_to_string requested)
  end.

Definition pngCompressionLevel (quality : number) : number :=
  Math_max (of_Z 0)
    (Math_min (of_Z 9) (Math_round (div (sub (of_Z 100) quality) (of_Z 10)))).

Definition compressionRatio (originalSize processedLength : number) : number :=
  if gtb originalSize (of_Z 0)
  then mul (sub (of_Z 1) (div processedLength originalSize)) (of_Z 100)
  else of_Z 0.

(** [{ ...m.exif, IFD0: { ...m.exif?.IFD0, ImageDescription: v } }] and
    the same for [UserComment]. *)
Definition with_ImageDescription (v : string) (m : WriteableMetadata.t) : WriteableMetadata.t :=
  let ifd0 := default IFD0.empty (WriteableMetadata.exif m) in
  WriteableMetadata.mk (Some (IFD0.mk (Some v) (IFD0.UserComment ifd0))).

Definition with_UserComment (v : string) (m : WriteableMetadata.t) : WriteableMetadata.t :=
  let ifd0 := default IFD0.empty (WriteableMetadata.exif m) in
  WriteableMetadata.mk (Some (IFD0.mk (IFD0.ImageDescription ifd0) (Some v))).

Definition truthy (s : option string) : bool :=
  match s with Some v => JsString.truthy v | None => false end.

Definition metadataToEmbed (metadata : ImageMetadata.t) : WriteableMetadata.t :=
  let m0 := WriteableMetadata.empty in
  let m1 :=
    if truthy (ImageMetadata.title metadata)
    then with_ImageDescription (default "" (ImageMetadata.title metadata)) m0
    else m0 in
  if truthy (ImageMetadata.description metadata)
  then with_UserComment (default "" (ImageMetadata.description metadata)) m1
  else m1.

(** [{ ...imageFile.metadata, title: ..., description: ... }] *)
Definition updated_metadata
    (existing requested : ImageMetadata.t) : ImageMetadata.t :=
  ImageMetadata.mk
    (ImageMetadata.title requested)
    (ImageMetadata.description requested)
    (ImageMetadata.author existing)
    (ImageMetadata.copyright existing)
    (ImageMetadata.keywords existing)
    (ImageMetadata.customFields existing).

Inductive ResponseBody : Type :=
  | ErrorBody (error : string)
  | ImageFileBody (finalImageFile : ImageFile.t).

Record Response : Type := {
  http_status : Z;
  body : ResponseBody;
}.

(** [NextResponse.json(data)] and [NextResponse.json(data, { status })]. *)
Definition json (data : ResponseBody) : Response :=
  {| http_status := 200; body := data |}.
Definition json_status (data : ResponseBody) (status : Z) : Response :=
  {| http_status := status; body := data |}.

(** The statements of the [try] block. *)
Definition try_block (w : World) (imageFile : ImageFile.t)
    (settings : CompressionSettings.t) (blobUrl : string)
    (startTime : number) : Try Response :=
  imageBuffer ← fetchBlob w blobUrl;
  assign (PartialImageFile.set_status processing);;
  may_throw StepPipeline (sharp_throws w imageBuffer);;
  let sharpInstance := SharpInstance.mk imageBuffer None None in
  let targetFormat := effectiveTargetFormat imageFile settings in
  if negb (includes MVP_PROCESS_FORMATS targetFormat) then
    throw StepFormat
      (ErrorObject ("Unsupported target format for MVP: "
                    +:+ JsString.show targetFormat
                    +:+ ". Only jpeg and png are supported initially."))
  else
    sharpInstance ←
      (if bool_decide (targetFormat = Some "jpeg") then
         let quality := CompressionSettings.quality settings in
         may_throw StepPipeline (jpeg_throws w quality);;
         mret (SharpInstance.mk (SharpInstance.input sharpInstance)
                 (Some (JpegOptions quality))
                 (SharpInstance.withMetadata sharpInstance))
       else if bool_decide (targetFormat = Some "png") then
         let level := pngCompressionLevel (CompressionSettings.quality settings) in
         may_throw StepPipeline (png_throws w level);;
         mret (SharpInstance.mk (SharpInstance.input sharpInstance)
                 (Some (PngOptions level))
                 (SharpInstance.withMetadata sharpInstance))
       else mret sharpInstance);
    let toEmbed := metadataToEmbed (CompressionSettings.metadata settings) in
    sharpInstance ←
      (if 0 <? WriteableMetadata.keys_length toEmbed then
         may_throw StepPipeline (withMetadata_throws w toEmbed);;
         mret (SharpInstance.mk (SharpInstance.input sharpInstance)
                 (SharpInstance.output sharpInstance) (Some toEmbed))
       else mret sharpInstance);
    assign (PartialImageFile.set_metadata
              (updated_metadata (ImageFile.metadata imageFile)
                 (CompressionSettings.metadata settings)));;
    record_call (CallToBuffer sharpInstance);;
    processedBuffer ← returned StepEncode (toBuffer w sharpInstance);
    let processedFileName :=
      "processed/" +:+ ImageFile.id imageFile +:+ "." +:+ JsString.show targetFormat in
    let options :=
      PutOptions.mk "public" ("image/" +:+ JsString.show targetFormat) 3600 in
    record_call (CallPut processedFileName processedBuffer options);;
    processedBlob ← returned StepStore (put w processedFileName processedBuffer options);
    let endTime := Date_now w 1 in
    assign (PartialImageFile.set_status completed);;
    assign (PartialImageFile.set_compressedSize (byteLength processedBuffer));;
    assign (PartialImageFile.set_compressionRatio
              (compressionRatio (ImageFile.originalSize imageFile)
                 (byteLength processedBuffer)));;
    assign (PartialImageFile.set_downloadUrl (PutBlobResult.url processedBlob));;
    assign (PartialImageFile.set_processingTimeMs (sub endTime startTime));;
    assign (PartialImageFile.set_processingSettings settings);;
    updated ← read;
    let finalImageFile := spread imageFile updated in
    mret (json (ImageFileBody finalImageFile)).

(** [error instanceof Error ? error.message : 'Unknown processing error'] *)
Definition message_of (error : Thrown) : string :=
  match error with
  | ErrorObject message => message
  | OtherValue => "Unknown processing error"
  end.

(** The statements of the [catch] clause, run on the state the [try]
    block left. *)
Definition catch_clause (w : World) (imageFile : ImageFile.t)
    (startTime : number) (error : Thrown) : Try Response :=
  let endTime := Date_now w 1 in
  assign (PartialImageFile.set_status failed);;
  assign (PartialImageFile.set_errorMessage (message_of error));;
  assign (PartialImageFile.set_processingTimeMs (sub endTime startTime));;
  updated ← read;
  let finalImageFile := spread imageFile updated in
  mret (json_status (ImageFileBody finalImageFile) 500).

(** [try { ... } catch (error) { ... }] *)
Definition try_catch {A : Type} (block : Try A) (handler : Thrown → Try A) : Try A :=
  λ st,
    match block st with
    | (inl (_, error), st') => handler error st'
    | (inr a, st') => (inr a, st')
    end.

(** The two properties that the handler takes from the body of a
    request; either may be absent. *)
Module RequestBody.
Record t : Type := mk {
  imageFile : option ImageFile.t;
  settings : option CompressionSettings.t;
}.
End RequestBody.

(** What [await request.json()] hands to the destructuring pattern of the
    first statement, when the body could be read.  A readable body is any
    JSON value.  [null] cannot be destructured: the engine throws a
    TypeError, an [Error] whose message is the engine's own and is taken
    here as it comes.  Every other value can be: it has the two
    properties or lacks them (a number, a string, a boolean or an array
    lacks both). *)
Inductive ParsedBody : Type :=
  | BodyNull (typeErrorMessage : string)
  | BodyWith (payload : RequestBody.t).

Record NextRequest : Type := {
  request_json : Thrown + ParsedBody;
}.

(** What the caller of the handler gets: a response, or the value the
    handler let escape. *)
Inductive Outcome : Type :=
  | Responded (response : Response)
  | Unhandled (error : Thrown).

Definition initial_state : State :=
  {| updatedImageFile := PartialImageFile.set_status processing PartialImageFile.empty;
     calls := [] |}.

(** The handler with the calls it made. *)
Definition POST_run (w : World) (request : NextRequest) : Outcome * list Call :=
  match request_json request with
  | inl error => (Unhandled error, [])
  | inr (BodyNull typeErrorMessage) => (Unhandled (ErrorObject typeErrorMessage), [])
  | inr (BodyWith payload) =>
      match RequestBody.imageFile payload, RequestBody.settings payload with
      | Some imageFile, Some settings =>
          if truthy (ImageFile.blobUrl imageFile) then
            let blobUrl := default "" (ImageFile.blobUrl imageFile) in
            let startTime := Date_now w 0 in
            match try_catch (try_block w imageFile settings blobUrl startTime)
                    (catch_clause w imageFile startTime) initial_state with
            | (inl (_, error), st) => (Unhandled error, calls st)
            | (inr response, st) => (Responded response, calls st)
            end
          else
            (Responded
               (json_status (ErrorBody "Missing image file data, settings, or blob URL.") 400),
             [])
      | _, _ =>
          (Responded
             (json_status (ErrorBody "Missing image file data, settings, or blob URL.") 400),
           [])
      end
  end.

Definition POST (w : World) (request : NextRequest) : Outcome :=
  fst (POST_run w request).

End Process.

(** ** The upload handler ([src/app/api/upload/route.ts]) *)

Module Upload.

(** A [File] of the form data: the properties the handler reads.  The
    size is a number of bytes. *)
Module File.
Record t : Type := mk {
  name : string;
  type : string;
  size : Z;
}.
End File.

Definition MAX_FILE_SIZE_MB : Z := 10.
Definition MAX_FILE_SIZE_BYTES : Z := MAX_FILE_SIZE_MB * 1024 * 1024.

Definition ALLOWED_MIME_TYPES : list string :=
  ["image/jpeg"; "image/png"; "image/webp"; "image/avif"].
Definition MVP_MIME_TYPES : list string := ["image/jpeg"; "image/png"].

Module PutOptions.
Record t : Type := mk {
  access : string;
  contentType : string;
  cacheControl : string;
}.
End PutOptions.

(** The world of one request: the k-th identifier that [nanoid] gives,
    and the result of the k-th [put]. *)
Record World : Type := {
  nanoid : nat → string;
  put : nat → string → File.t → PutOptions.t → Thrown + PutBlobResult.t;
}.

Module PutCall.
Record t : Type := mk {
  pathname : string;
  body : File.t;
  options : PutOptions.t;
}.
End PutCall.

(** The two arrays of the handler, and the writes attempted so far. *)
Record State : Type := {
  uploadedFilesInfo : list ImageFile.t;
  errors : list string;
  puts : list PutCall.t;
}.

Definition initial_state : State :=
  {| uploadedFilesInfo := []; errors := []; puts := [] |}.

Definition push_error (message : string) (st : State) : State :=
  {| uploadedFilesInfo := uploadedFilesInfo st;
     errors := errors st ++ [message];
     puts := puts st |}.

Definition push_uploaded (info : ImageFile.t) (st : State) : State :=
  {| uploadedFilesInfo := uploadedFilesInfo st ++ [info];
     errors := errors st;
     puts := puts st |}.

Definition record_put (c : PutCall.t) (st : State) : State :=
  {| uploadedFilesInfo := uploadedFilesInfo st;
     errors := errors st;
     puts := puts st ++ [c] |}.

(** [(size / 1024 / 1024).toFixed(2)].  The two divisions by a power of
    two are exact, so the digits are those of [size * 100 / 2^20]
    rounded to the nearest integer, the larger one on a tie. *)
Definition megabytes_toFixed2 (size : Z) : string :=
  let n := (200 * size + 2 ^ 20) `div` 2 ^ 21 in
  let cents := n `mod` 100 in
  pretty (n `div` 100) +:+ "."
    +:+ (if cents <? 10 then "0" else "") +:+ pretty cents.

Definition unsupported_message (file : File.t) : string :=
  "Unsupported file type: " +:+ File.name file
    +:+ " (" +:+ File.type file +:+ ")".

Definition too_large_message (file : File.t) : string :=
  "File too large: " +:+ File.name file
    +:+ " (" +:+ megabytes_toFixed2 (File.size file) +:+ " MB)".

Definition failed_message (file : File.t) : string :=
  "Failed to upload " +:+ File.name file +:+ ".".

(** [file.name.includes('.') ? file.name.split('.').pop() : 'bin'] *)
Definition fileExtension (file : File.t) : option string :=
  if JsString.includes "."%char (File.name file)
  then last (JsString.split "."%char (File.name file))
  else Some "bin".

(** One iteration of the loop over the files. *)
Definition upload_file (w : World) (st : State) (file : File.t) : State :=
  if negb (bool_decide (File.type file ∈ ALLOWED_MIME_TYPES)) then
    push_error (unsupported_message file) st
  else if MAX_FILE_SIZE_BYTES <? File.size file then
    push_error (too_large_message file) st
  else
    let k := length (puts st) in
    let uniqueId := nanoid w k in
    let blobPath :=
      "uploads/" +:+ uniqueId +:+ "." +:+ JsString.show (fileExtension file) in
    let options :=
      PutOptions.mk "public" (File.type file) "public, max-age=3600" in
    let st := record_put (PutCall.mk blobPath file options) st in
    match put w k blobPath file options with
    | inr blob =>
        let imageFileInfo :=
          ImageFile.mk (PutBlobResult.pathname blob) (File.name file)
            (of_Z (File.size file)) (File.type file) None None uploaded
            ImageMetadata.empty None None None None None
            (Some (PutBlobResult.url blob)) in
        push_uploaded imageFileInfo st
    | inl error => push_error (failed_message file) st
    end.

Definition upload_loop (w : World) (files : list File.t) (st : State) : State :=
  fold_left (upload_file w) files st.

Inductive ResponseBody : Type :=
  | ErrorBody (error : string)
  | MultiStatusBody (uploadedFiles : list ImageFile.t) (uploadErrors : list string)
  | ImageFilesBody (uploadedFilesInfo : list ImageFile.t).

Record Response : Type := {
  http_status : Z;
  body : ResponseBody;
}.

Definition json (data : ResponseBody) : Response :=
  {| http_status := 200; body := data |}.
Definition json_status (data : ResponseBody) (status : Z) : Response :=
  {| http_status := status; body := data |}.

(** The response for the arrays that the loop filled. *)
Definition respond (st : State) : Response :=
  if (length (uploadedFilesInfo st) =? 0)%nat && (0 <? length (errors st))%nat then
    json_status
      (ErrorBody ("Upload failed. Errors: " +:+ JsString.join ", " (errors st))) 400
  else if (0 <? length (errors st))%nat then
    json_status (MultiStatusBody (uploadedFilesInfo st) (errors st)) 207
  else
    json (ImageFilesBody (uploadedFilesInfo st)).

(** The handler with the writes it attempted; [files] is
    [formData.getAll('files')]. *)
Definition POST_run (w : World) (files : list File.t) : Response * list PutCall.t :=
  if (length files =? 0)%nat then
    (json_status (ErrorBody "No files provided.") 400, [])
  else
    let st := upload_loop w files initial_state in
    (respond st, puts st).

Definition POST (w : World) (files : list File.t) : Response :=
  fst (POST_run w files).

End Upload.

(** ** The client file list ([handleFilesUploaded] of the page) *)

Module Client.

(** The updater that [handleFilesUploaded] passes to [setFiles]:
    [existingIds] is a [Set] of storage references, and a [Set] compares
    strings and [undefined] by value. *)
Definition handleFilesUploaded
    (uploadedFiles : list ImageFile.t) (prevFiles : list ImageFile.t) : list ImageFile.t :=
  let existingIds : gset (option string) :=
    list_to_set (map ImageFile.blobUrl prevFiles) in
  let newFiles :=
    filter (λ f, ImageFile.blobUrl f ∉ existingIds) uploadedFiles in
  prevFiles ++ newFiles.

End Client.

(** ** Definitions used by the statements *)

Import Process.

(** The precondition of the process handler: [imageFile], [settings] and
    [imageFile.blobUrl] are all truthy. *)
Definition passes_precondition (request : NextRequest) (imageFile : ImageFile.t)
    (settings : CompressionSettings.t) (blobUrl : string) : Prop :=
  request_json request = inr (BodyWith (RequestBody.mk (Some imageFile) (Some settings))) ∧
  ImageFile.blobUrl imageFile = Some blobUrl ∧
  blobUrl ≠ "".

(** [updatedImageFile] as the handler creates it. *)
Definition processing_only : PartialImageFile.t :=
  PartialImageFile.set_status processing PartialImageFile.empty.

(** The output options that the handler sets for an effective format. *)
Definition output_for (format : option string) (settings : CompressionSettings.t)
    : option OutputOptions :=
  if bool_decide (format = Some "jpeg") then
    Some (JpegOptions (CompressionSettings.quality settings))
  else if bool_decide (format = Some "png") then
    Some (PngOptions (pngCompressionLevel (CompressionSettings.quality settings)))
  else None.

(** The quality mapping as the specification words it, in exact integer
    arithmetic: [clamp(round((100 - quality) / 10), 0, 9)], where [round]
    takes a half up. *)
Definition clamp (x lo hi : Z) : Z :=
  if x <? lo then lo else if hi <? x then hi else x.

Definition round_tenths (n : Z) : Z := (2 * n + 10) `div` 20.

Definition spec_pngCompressionLevel (quality : Z) : Z :=
  clamp (round_tenths (100 - quality)) 0 9.

(** Equality of numbers as data (not [===]: NaN equals NaN here, and the
    two zeros differ). *)
Definition number_eqb (x y : number) : bool :=
  match x, y with
  | S754_zero a, S754_zero b => Bool.eqb a b
  | S754_infinity a, S754_infinity b => Bool.eqb a b
  | S754_nan, S754_nan => true
  | S754_finite a m e, S754_finite b m' e' =>
      Bool.eqb a b && Pos.eqb m m' && Z.eqb e e'
  | _, _ => false
  end.

(** [P] holds of the [n] integers from [lo] on. *)
Fixpoint all_from (P : Z → bool) (lo : Z) (n : nat) : bool :=
  match n with
  | O => true
  | S k => P lo && all_from P (lo + 1) k
  end.

Definition level_agrees (q : Z) : bool :=
  number_eqb (pngCompressionLevel (of_Z q)) (of_Z (spec_pngCompressionLevel q)).

(** *** Sample requests and worlds *)

Module Sample.

Definition store (pathname : string) : string := "https://blob.example/" +:+ pathname.

(** A world in which every collaborator succeeds: the original has 1000
    bytes and the processed image 400. *)
Definition world : World := {|
  fetch := λ _, inr (FetchResponse.mk true "OK" (inr (repeat Byte.x00 1000)));
  Date_now := λ k, of_Z (1700000000000 + 25 * Z.of_nat k);
  sharp_throws := λ _, None;
  jpeg_throws := λ _, None;
  png_throws := λ _, None;
  withMetadata_throws := λ _, None;
  toBuffer := λ _, inr (repeat Byte.x01 400);
  put := λ pathname _ _, inr (PutBlobResult.mk (store pathname) pathname);
|}.

(** The same world, but the original is gone from the store. *)
Definition world_fetch_fails : World := {|
  fetch := λ _, inr (FetchResponse.mk false "Not Found" (inr []));
  Date_now := Date_now world;
  sharp_throws := sharp_throws world;
  jpeg_throws := jpeg_throws world;
  png_throws := png_throws world;
  withMetadata_throws := withMetadata_throws world;
  toBuffer := toBuffer world;
  put := put world;
|}.

(** The same world, but the codec rejects the image. *)
Definition world_encode_fails : World := {|
  fetch := fetch world;
  Date_now := Date_now world;
  sharp_throws := sharp_throws world;
  jpeg_throws := jpeg_throws world;
  png_throws := png_throws world;
  withMetadata_throws := withMetadata_throws world;
  toBuffer := λ _, inl (ErrorObject "Input buffer contains unsupported image format");
  put := put world;
|}.

(** The same world, but the codec refuses the options of [jpeg], as it
    does for a quality outside 1..100. *)
Definition world_options_refused : World := {|
  fetch := fetch world;
  Date_now := Date_now world;
  sharp_throws := sharp_throws world;
  jpeg_throws := λ _,
    Some (ErrorObject "Expected integer between 1 and 100 for quality but received 0");
  png_throws := png_throws world;
  withMetadata_throws := withMetadata_throws world;
  toBuffer := toBuffer world;
  put := put world;
|}.

Definition blobUrl : string := store "uploads/V1StGXR8.png".

(** A record as the upload handler returns it. *)
Definition record (originalSize : Z) : ImageFile.t :=
  ImageFile.mk "uploads/V1StGXR8.png" "sunset.png" (of_Z originalSize) "image/png"
    None None uploaded
    (ImageMetadata.mk None None (Some "Ansel") None None None)
    None None None None None (Some blobUrl).

Definition settings (quality : Z) (format : TargetFormat) : CompressionSettings.t :=
  CompressionSettings.mk (of_Z quality) format None None None
    (ImageMetadata.mk (Some "Sunset") (Some "Over the bay") None None None None).

Definition request (imageFile : ImageFile.t) (s : CompressionSettings.t) : NextRequest :=
  {| request_json := inr (BodyWith (RequestBody.mk (Some imageFile) (Some s))) |}.

(** The record after a failed attempt, as the client holds it and sends
    it again on a retry. *)
Definition record_after_failure : ImageFile.t :=
  ImageFile.mk "uploads/V1StGXR8.png" "sunset.png" (of_Z 1000) "image/png"
    None None failed
    (ImageMetadata.mk None None (Some "Ansel") None None None)
    None None None (Some "Failed to fetch blob: Not Found") (Some (of_Z 25))
    (Some blobUrl).

(** The record after a completed attempt. *)
Definition record_after_success : ImageFile.t :=
  ImageFile.mk "uploads/V1StGXR8.png" "sunset.png" (of_Z 1000) "image/png"
    (Some (of_Z 400)) (Some (of_Z 60)) completed
    (ImageMetadata.mk (Some "Sunset") (Some "Over the bay") (Some "Ansel") None None None)
    None (Some (settings 80 original))
    (Some (store "processed/uploads/V1StGXR8.png.png")) None (Some (of_Z 25))
    (Some blobUrl).

End Sample.

(** Which collaborator threw, for a value thrown at a given step of the
    [try] block. *)
Definition thrown_by (w : World) (imageFile : ImageFile.t)
    (settings : CompressionSettings.t) (blobUrl : string)
    (step : Step) (error : Thrown) : Prop :=
  match step with
  | StepFetch =>
      fetch w blobUrl = inl error ∨
      ∃ response, fetch w blobUrl = inr response ∧
        (FetchResponse.ok response = false ∧
         error = ErrorObject ("Failed to fetch blob: " +:+ FetchResponse.statusText response)
         ∨ FetchResponse.arrayBuffer response = inl error)
  | StepFormat =>
      includes MVP_PROCESS_FORMATS (effectiveTargetFormat imageFile settings) = false ∧
      error = ErrorObject ("Unsupported target format for MVP: "
                +:+ JsString.show (effectiveTargetFormat imageFile settings)
                +:+ ". Only jpeg and png are supported initially.")
  | StepPipeline =>
      (∃ input, sharp_throws w input = Some error) ∨
      jpeg_throws w (CompressionSettings.quality settings) = Some error ∨
      png_throws w (pngCompressionLevel (CompressionSettings.quality settings)) = Some error ∨
      withMetadata_throws w (metadataToEmbed (CompressionSettings.metadata settings)) = Some error
  | StepEncode => ∃ instance, toBuffer w instance = inl error
  | StepStore => ∃ pathname processed options, put w pathname processed options = inl error
  end.

(** The record of a failed response: the input record with the three
    properties that the [catch] clause sets, and the given metadata. *)
Definition failed_record (imageFile : ImageFile.t) (metadata : ImageMetadata.t)
    (message : string) (elapsed : number) : ImageFile.t :=
  ImageFile.mk (ImageFile.id imageFile) (ImageFile.originalName imageFile)
    (ImageFile.originalSize imageFile) (ImageFile.originalFormat imageFile)
    (ImageFile.compressedSize imageFile) (ImageFile.compressionRatio imageFile)
    failed metadata
    (ImageFile.originalMetadata imageFile) (ImageFile.processingSettings imageFile)
    (ImageFile.downloadUrl imageFile)
    (Some message) (Some elapsed)
    (ImageFile.blobUrl imageFile).

(** *** The upload handler *)

(** A file that the validation of the upload handler rejects: its
    declared type is not allowed, or it is larger than the ceiling. *)
Definition rejected (file : Upload.File.t) : Prop :=
  Upload.File.type file ∉ Upload.ALLOWED_MIME_TYPES ∨
  Upload.MAX_FILE_SIZE_BYTES < Upload.File.size file.

(** The state with its two arrays emptied; the writes stay. *)
Definition fresh_arrays (st : Upload.State) : Upload.State :=
  {| Upload.uploadedFilesInfo := []; Upload.errors := []; Upload.puts := Upload.puts st |}.

Module UploadSample.

Definition world : Upload.World := {|
  Upload.nanoid := λ k, "id" +:+ pretty k;
  Upload.put := λ _ pathname _ _,
    inr (PutBlobResult.mk ("https://blob.example/" +:+ pathname) pathname);
|}.

(** A world whose store refuses every write. *)
Definition world_store_down : Upload.World := {|
  Upload.nanoid := Upload.nanoid world;
  Upload.put := λ _ _ _ _, inl (ErrorObject "Vercel Blob: service unavailable");
|}.

Definition photo : Upload.File.t := Upload.File.mk "sunset.jpeg" "image/jpeg" 2097152.
Definition logo : Upload.File.t := Upload.File.mk "logo.png" "image/png" 51200.
Definition animation : Upload.File.t := Upload.File.mk "cat.gif" "image/gif" 4096.
Definition poster : Upload.File.t := Upload.File.mk "poster.png" "image/png" 11534336.

End UploadSample.

(** *** The client file list *)

(** The merge as the specification words it: a new record whose storage
    reference already exists in the collection is dropped, every other
    new record is appended, in order. *)
Fixpoint spec_appended (collection new : list ImageFile.t) : list ImageFile.t :=
  match new with
  | [] => []
  | r :: rest =>
      if bool_decide (Exists (λ g, ImageFile.blobUrl g = ImageFile.blobUrl r) collection)
      then spec_appended collection rest
      else r :: spec_appended collection rest
  end.

Module ClientSample.

Definition stored (id url : string) : ImageFile.t :=
  ImageFile.mk id "sunset.png" (of_Z 1000) "image/png" None None uploaded
    ImageMetadata.empty None None None None None (Some url).

Definition collection : list ImageFile.t :=
  [stored "uploads/a.png" "https://blob.example/uploads/a.png";
   stored "uploads/b.png" "https://blob.example/uploads/b.png"].

(** Three new records: one with a new id but the storage reference of
    [a], one with the id of [b] but a new storage reference, one new
    in both. *)
Definition arrivals : list ImageFile.t :=
  [stored "uploads/c.png" "https://blob.example/uploads/a.png";
   stored "uploads/b.png" "https://blob.example/uploads/b2.png";
   stored "uploads/d.png" "https://blob.example/uploads/d.png"].

End ClientSample.

(** ** The image card ([ImageCard]) *)

Module Card.

(** [file.metadata.title || ''], the initial value of a text field. *)
Definition or_empty (v : option string) : string :=
  match v with
  | Some s => if JsString.truthy s then s else ""
  | None => ""
  end.

(** [handleProcessClick]: the arguments it gives to [onProcessImage],
    for the record of the card and the card's title, description and
    quality. *)
Definition handleProcessClick (file : ImageFile.t) (title description : string)
    (quality : number) : string * CompressionSettings.t :=
  let targetFormat :=
    if bool_decide (ImageFile.originalFormat file = "image/jpeg")
       || bool_decide (ImageFile.originalFormat file = "image/png")
    then original else jpeg in
  let settings :=
    CompressionSettings.mk quality targetFormat None None None
      (ImageMetadata.mk (Some title) (Some description) None None None None) in
  (ImageFile.id file, settings).

(** Whether [/(\.[^.]+)$/] matches the whole of [s]: a dot, then one or
    more characters other than a dot, up to the end. *)
Definition is_extension (s : string) : bool :=
  match s with
  | String c rest =>
      Ascii.eqb c "." && JsString.truthy rest && negb (JsString.includes "." rest)
  | EmptyString => false
  end.

(** [name.replace(/(\.[^.]+)$/, '-compressed$1')]: the first position at
    which the pattern matches gets the prefix; [None] when there is no
    match. *)
Fixpoint replace_extension (name : string) : option string :=
  if is_extension name then Some ("-compressed" +:+ name)
  else
    match name with
    | String c rest => String c <$> replace_extension rest
    | EmptyString => None
    end.

(** The [download] attribute of the link. *)
Definition download_name (file : ImageFile.t) : string :=
  default (ImageFile.originalName file) (replace_extension (ImageFile.originalName file)).

End Card.

(** ** The upload zone ([UploadZone], the callback [onDrop])

    The repository holds two revisions of the component, which differ in
    the size limit and in the text of the message. *)

Module Zone.

Record Revision : Type := {
  max_size : Z;
  too_large_suffix : string;
}.

(** [src/app/components/UploadZone.tsx]: [10 * 1024 * 1024]. *)
Definition revision_10MB : Revision :=
  {| max_size := 10 * 1024 * 1024; too_large_suffix := "" |}.

(** The later revision: [4.5 * 1024 * 1024], which is 4718592. *)
Definition revision_4_5MB : Revision :=
  {| max_size := 4718592; too_large_suffix := ". Max size is 4.5MB." |}.

Definition ACCEPTED_TYPES : list string :=
  ["image/jpeg"; "image/png"; "image/webp"; "image/avif"].

(** The response of [fetch('/api/upload')]: [ok], and the body that
    [response.json()] gives, one of the bodies that the route sends. *)
Module HttpResponse.
Record t : Type := mk {
  ok : bool;
  json : Thrown + Upload.ResponseBody;
}.
End HttpResponse.

Record World : Type := {
  fetch_upload : list Upload.File.t → Thrown + HttpResponse.t;
  onFilesUploaded_throws : Upload.ResponseBody → option Thrown;
}.

(** What [onDrop] does to the outside, in order. *)
Inductive Effect : Type :=
  | SetErrorMessage (message : option string)
  | PostUpload (files : list Upload.File.t)
  | OnFilesUploaded (uploadedFiles : Upload.ResponseBody).

(** The state of the [forEach] loop. *)
Record Loop : Type := {
  formData : list Upload.File.t;
  hasValidFiles : bool;
  effects : list Effect;
}.

Definition unsupported_message (file : Upload.File.t) : string :=
  "Unsupported file type: " +:+ Upload.File.name file
    +:+ " (" +:+ Upload.File.type file +:+ ")".

Definition too_large_message (rev : Revision) (file : Upload.File.t) : string :=
  "File too large: " +:+ Upload.File.name file
    +:+ " (" +:+ Upload.megabytes_toFixed2 (Upload.File.size file) +:+ " MB)"
    +:+ too_large_suffix rev.

Definition say (message : string) (st : Loop) : Loop :=
  {| formData := formData st;
     hasValidFiles := hasValidFiles st;
     effects := effects st ++ [SetErrorMessage (Some message)] |}.

(** The callback of [forEach]. *)
Definition check_file (rev : Revision) (st : Loop) (file : Upload.File.t) : Loop :=
  if negb (bool_decide (Upload.File.type file ∈ ACCEPTED_TYPES)) then
    say (unsupported_message file) st
  else if max_size rev <? Upload.File.size file then
    say (too_large_message rev file) st
  else
    {| formData := formData st ++ [file];
       hasValidFiles := true;
       effects := effects st |}.

(** [error instanceof Error ? error.message : '...'] *)
Definition message_of (error : Thrown) : string :=
  match error with
  | ErrorObject message => message
  | OtherValue => "An unknown error occurred during upload."
  end.

(** [errorData.error || 'Upload failed'] *)
Definition error_or_default (errorData : Upload.ResponseBody) : string :=
  match errorData with
  | Upload.ErrorBody error => if JsString.truthy error then error else "Upload failed"
  | _ => "Upload failed"
  end.

(** The [try] statement of [onDrop]: what follows the request. *)
Definition after_fetch (w : World) (reply : Thrown + HttpResponse.t) : list Effect :=
  match reply with
  | inl error => [SetErrorMessage (Some (message_of error))]
  | inr response =>
      if negb (HttpResponse.ok response) then
        match HttpResponse.json response with
        | inl error => [SetErrorMessage (Some (message_of error))]
        | inr errorData => [SetErrorMessage (Some (error_or_default errorData))]
        end
      else
        match HttpResponse.json response with
        | inl error => [SetErrorMessage (Some (message_of error))]
        | inr uploadedFiles =>
            OnFilesUploaded uploadedFiles ::
            match onFilesUploaded_throws w uploadedFiles with
            | Some error => [SetErrorMessage (Some (message_of error))]
            | None => []
            end
        end
  end.

Definition onDrop (rev : Revision) (w : World) (acceptedFiles : list Upload.File.t)
    : list Effect :=
  let start :=
    {| formData := []; hasValidFiles := false; effects := [SetErrorMessage None] |} in
  let st := fold_left (check_file rev) acceptedFiles start in
  if negb (hasValidFiles st) && (0 <? length acceptedFiles)%nat then
    effects st ++ [SetErrorMessage (Some "No valid files selected or files exceed limits.")]
  else if negb (hasValidFiles st) && (length acceptedFiles =? 0)%nat then
    effects st
  else
    effects st ++ PostUpload (formData st) :: after_fetch w (fetch_upload w (formData st)).

End Zone.

(** ** The page ([Home]): its state and its handlers *)

(** The argument [updates] of [updateFileState]: an object with some of
    the properties of a record.  For an optional property of the record,
    [Some None] is the property set to [undefined] (as in
    [errorMessage: undefined]) and [None] the property left out. *)
Module Updates.
Record t : Type := mk {
  id : option string;
  originalName : option string;
  originalSize : option number;
  originalFormat : option string;
  compressedSize : option (option number);
  compressionRatio : option (option number);
  status : option Status;
  metadata : option ImageMetadata.t;
  originalMetadata : option (option (list (string * Json)));
  processingSettings : option (option CompressionSettings.t);
  downloadUrl : option (option string);
  errorMessage : option (option string);
  processingTimeMs : option (option number);
  blobUrl : option (option string);
}.

(** [{ status: s, errorMessage: e }] *)
Definition status_and_error (s : Status) (e : option string) : t :=
  mk None None None None None None (Some s) None None None None (Some e) None None.
End Updates.

Module Page.

(** [{ ...file, ...updates }] *)
Definition spread (file : ImageFile.t) (updates : Updates.t) : ImageFile.t :=
  ImageFile.mk
    (default (ImageFile.id file) (Updates.id updates))
    (default (ImageFile.originalName file) (Updates.originalName updates))
    (default (ImageFile.originalSize file) (Updates.originalSize updates))
    (default (ImageFile.originalFormat file) (Updates.originalFormat updates))
    (default (ImageFile.compressedSize file) (Updates.compressedSize updates))
    (default (ImageFile.compressionRatio file) (Updates.compressionRatio updates))
    (default (ImageFile.status file) (Updates.status updates))
    (default (ImageFile.metadata file) (Updates.metadata updates))
    (default (ImageFile.originalMetadata file) (Updates.originalMetadata updates))
    (default (ImageFile.processingSettings file) (Updates.processingSettings updates))
    (default (ImageFile.downloadUrl file) (Updates.downloadUrl updates))
    (default (ImageFile.errorMessage file) (Updates.errorMessage updates))
    (default (ImageFile.processingTimeMs file) (Updates.processingTimeMs updates))
    (default (ImageFile.blobUrl file) (Updates.blobUrl updates)).

(** The three state variables of the component. *)
Record State : Type := {
  files : list ImageFile.t;
  errorMessage : option string;
  isProcessingAny : bool;
}.

Definition setFiles (updater : list ImageFile.t → list ImageFile.t) (st : State) : State :=
  {| files := updater (files st);
     errorMessage := errorMessage st;
     isProcessingAny := isProcessingAny st |}.

Definition setErrorMessage (message : option string) (st : State) : State :=
  {| files := files st; errorMessage := message; isProcessingAny := isProcessingAny st |}.

Definition setIsProcessingAny (value : bool) (st : State) : State :=
  {| files := files st; errorMessage := errorMessage st; isProcessingAny := value |}.

(** [handleFilesUploaded]: the two state updates it asks for. *)
Definition handleFilesUploaded (uploadedFiles : list ImageFile.t) (st : State) : State :=
  setErrorMessage None (setFiles (Client.handleFilesUploaded uploadedFiles) st).

(** The updater that [updateFileState] passes to [setFiles]. *)
Definition updateFileState (id : string) (updates : Updates.t)
    (prevFiles : list ImageFile.t) : list ImageFile.t :=
  map (λ file,
         if bool_decide (ImageFile.id file = id) then spread file updates else file)
      prevFiles.

(** The response of [fetch('/api/process')]: [ok], and the object that
    [response.json()] gives, seen through the properties of a record. *)
Module HttpResponse.
Record t : Type := mk {
  ok : bool;
  json : Thrown + Updates.t;
}.
End HttpResponse.

Record World : Type := {
  fetch_process : ImageFile.t → CompressionSettings.t → Thrown + HttpResponse.t;
}.

Definition is_processing (s : Status) : bool :=
  match s with processing => true | _ => false end.

(** [error instanceof Error ? error.message : ...] *)
Definition message_of (error : Thrown) : string :=
  match error with
  | ErrorObject message => message
  | OtherValue => "An unknown error occurred during processing."
  end.

(** [result.errorMessage || 'Processing failed'] *)
Definition errorMessage_or_default (result : Updates.t) : string :=
  match Updates.errorMessage result with
  | Some (Some message) => if JsString.truthy message then message else "Processing failed"
  | _ => "Processing failed"
  end.

(** The [try] statement of [handleProcessImage]: the value thrown, or
    the updates of the success path. *)
Definition try_process (reply : Thrown + HttpResponse.t) : Thrown + Updates.t :=
  match reply with
  | inl error => inl error
  | inr response =>
      match HttpResponse.json response with
      | inl error => inl error
      | inr result =>
          if negb (HttpResponse.ok response)
          then inl (ErrorObject (errorMessage_or_default result))
          else inr result
      end
  end.

(** The updater of the [finally] clause, which leaves the files as they
    are and sets the flag. *)
Definition finally_clause (id : string) (st : State) : State :=
  let stillProcessing :=
    existsb (λ f, negb (bool_decide (ImageFile.id f = id))
                  && is_processing (ImageFile.status f))
            (files st) in
  setIsProcessingAny stillProcessing st.

(** [handleProcessImage], for the [files] that the callback closes over:
    the request it sends, if any, and the state updates it asks for, in
    order. *)
Definition handleProcessImage (w : World) (closed_over : list ImageFile.t)
    (id : string) (settings : CompressionSettings.t)
    : option (ImageFile.t * CompressionSettings.t) * list (State → State) :=
  match List.find (λ f, bool_decide (ImageFile.id f = id)) closed_over with
  | None => (None, [])
  | Some imageFile =>
      (Some (imageFile, settings),
       [ setIsProcessingAny true;
         setFiles (updateFileState id (Updates.status_and_error processing None));
         match try_process (fetch_process w imageFile settings) with
         | inr result => setFiles (updateFileState id result)
         | inl error =>
             setFiles (updateFileState id
                         (Updates.status_and_error failed (Some (message_of error))))
         end;
         finally_clause id ])
  end.

(** The state after the updates, applied in order with nothing in
    between. *)
Definition run (updates : list (State → State)) (st : State) : State :=
  fold_left (λ s update, update s) updates st.

(** What an effect of the upload zone does to the page, whose
    [onFilesUploaded] is [handleFilesUploaded]; [None] for a body that
    is no list of records. *)
Definition apply_effect (st : State) (e : Zone.Effect) : option State :=
  match e with
  | Zone.SetErrorMessage message => Some (setErrorMessage message st)
  | Zone.PostUpload _ => Some st
  | Zone.OnFilesUploaded (Upload.ImageFilesBody uploadedFiles) =>
      Some (handleFilesUploaded uploadedFiles st)
  | Zone.OnFilesUploaded _ => None
  end.

Fixpoint apply_effects (st : State) (es : list Zone.Effect) : option State :=
  match es with
  | [] => Some st
  | e :: rest =>
      match apply_effect st e with
      | Some st' => apply_effects st' rest
      | None => None
      end
  end.

End Page.

(** *** The route behind the zone's request *)

(** The response that [fetch('/api/upload')] gives when the upload route
    answers: [ok] for a status from 200 to 299, and the body. *)
Definition upload_reply (server : Upload.World) (files : list Upload.File.t)
    : Thrown + Zone.HttpResponse.t :=
  let response := Upload.POST server files in
  inr (Zone.HttpResponse.mk
         ((200 <=? Upload.http_status response) && (Upload.http_status response <=? 299))
         (inr (Upload.body response))).

(** The zone on the page, in front of the route. *)
Definition zone_world (server : Upload.World) : Zone.World :=
  {| Zone.fetch_upload := upload_reply server;
     Zone.onFilesUploaded_throws := λ _, None |}.

(** *** Shapes used by the statements *)

(** The calls of one attempt: nothing; a fetch; a fetch and the encoding
    of the fetched bytes; or these and the write of the encoded bytes. *)
Definition one_attempt (w : Process.World) (calls : list Process.Call) : Prop :=
  calls = [] ∨
  (∃ url, calls = [Process.CallFetch url]) ∨
  (∃ url fetched instance,
     calls = [Process.CallFetch url; Process.CallToBuffer instance] ∧
     Process.fetch w url = inr fetched ∧
     Process.FetchResponse.arrayBuffer fetched
       = inr (Process.SharpInstance.input instance)) ∨
  (∃ url fetched instance pathname processed options,
     calls = [Process.CallFetch url; Process.CallToBuffer instance;
              Process.CallPut pathname processed options] ∧
     Process.fetch w url = inr fetched ∧
     Process.FetchResponse.arrayBuffer fetched
       = inr (Process.SharpInstance.input instance) ∧
     Process.toBuffer w instance = inr processed).

(** The validation of the upload handler as a test: the type is allowed
    and the size is within the ceiling. *)
Definition validated (file : Upload.File.t) : bool :=
  bool_decide (Upload.File.type file ∈ Upload.ALLOWED_MIME_TYPES)
  && (Upload.File.size file <=? Upload.MAX_FILE_SIZE_BYTES).

(** The test of the upload zone, for a revision. *)
Definition zone_accepts (rev : Zone.Revision) (file : Upload.File.t) : bool :=
  bool_decide (Upload.File.type file ∈ Zone.ACCEPTED_TYPES)
  && (Upload.File.size file <=? Zone.max_size rev).

(** The record that the upload handler makes of a stored file. *)
Definition uploaded_record (file : Upload.File.t) (blob : PutBlobResult.t) : ImageFile.t :=
  ImageFile.mk (PutBlobResult.pathname blob) (Upload.File.name file)
    (of_Z (Upload.File.size file)) (Upload.File.type file) None None uploaded
    ImageMetadata.empty None None None None None (Some (PutBlobResult.url blob)).

(** The path and the options of the write for a file, with the
    identifier it was given. *)
Definition blob_path (uniqueId : string) (file : Upload.File.t) : string :=
  "uploads/" +:+ uniqueId +:+ "." +:+ JsString.show (Upload.fileExtension file).

Definition blob_options (file : Upload.File.t) : Upload.PutOptions.t :=
  Upload.PutOptions.mk "public" (Upload.File.type file) "public, max-age=3600".

(** A record with another status and another (or no) error message,
    every other property as it is. *)
Definition with_status_and_error (f : ImageFile.t) (s : Status) (e : option string)
    : ImageFile.t :=
  ImageFile.mk (ImageFile.id f) (ImageFile.originalName f) (ImageFile.originalSize f)
    (ImageFile.originalFormat f) (ImageFile.compressedSize f)
    (ImageFile.compressionRatio f) s (ImageFile.metadata f)
    (ImageFile.originalMetadata f) (ImageFile.processingSettings f)
    (ImageFile.downloadUrl f) e (ImageFile.processingTimeMs f) (ImageFile.blobUrl f).

(** Whether a record other than those with the given id is processing. *)
Definition another_is_processing (id : string) (files : list ImageFile.t) : bool :=
  existsb (λ f, negb (bool_decide (ImageFile.id f = id))
                && Page.is_processing (ImageFile.status f))
          files.

Module PageSample.

Definition waiting : ImageFile.t :=
  ImageFile.mk "uploads/a.png" "a.png" (of_Z 1000) "image/png" None None uploaded
    (ImageMetadata.mk (Some "Old title") None None None None None)
    None None None None None (Some "https://blob.example/uploads/a.png").

Definition busy : ImageFile.t :=
  ImageFile.mk "uploads/b.png" "b.png" (of_Z 2000) "image/png" None None processing
    ImageMetadata.empty None None None None None
    (Some "https://blob.example/uploads/b.png").

Definition state : Page.State :=
  {| Page.files := [waiting; busy];
     Page.errorMessage := None;
     Page.isProcessingAny := true |}.

Definition settings : CompressionSettings.t :=
  CompressionSettings.mk (of_Z 80) original None None None
    (ImageMetadata.mk (Some "New title") (Some "") None None None None).

(** The route answers 500 with a failed record that carries the new
    title. *)
Definition world_500 : Page.World :=
  {| Page.fetch_process := λ imageFile s,
       inr (Page.HttpResponse.mk false
              (inr (Updates.mk (Some (ImageFile.id imageFile)) None None None None None
                      (Some failed) (Some (CompressionSettings.metadata s))
                      None None None (Some (Some "Input buffer is empty"))
                      (Some (Some (of_Z 12))) None))) |}.

(** The route answers 200 with a completed record. *)
Definition world_200 : Page.World :=
  {| Page.fetch_process := λ imageFile s,
       inr (Page.HttpResponse.mk true
              (inr (Updates.mk (Some (ImageFile.id imageFile)) None None None
                      (Some (Some (of_Z 400))) (Some (Some (of_Z 60)))
                      (Some completed) (Some (CompressionSettings.metadata s))
                      None (Some (Some s))
                      (Some (Some "https://blob.example/processed/uploads/a.png.png"))
                      None (Some (Some (of_Z 12))) None))) |}.

End PageSample.

(** ** Properties of the process handler *)

(** *** Numbers *)

Lemma number_eqb_eq (x y : number) : number_eqb x y = true → x = y.
Proof.
  destruct x as [a|a| |a m e], y as [b|b| |b m' e']; simpl; try done.
  - by intros ->%Bool.eqb_prop.
  - by intros ->%Bool.eqb_prop.
  - intros [[->%Bool.eqb_prop ->%Pos.eqb_eq]%andb_prop ->%Z.eqb_eq]%andb_prop.
    done.
Qed.

Lemma all_from_spec (P : Z → bool) (n : nat) :
  ∀ lo, all_from P lo n = true → ∀ z, lo ≤ z < lo + Z.of_nat n → P z = true.
Proof.
  induction n as [|n IH]; intros lo Hall z Hz; [lia|].
  simpl in Hall. apply andb_prop in Hall as [Hlo Hrest].
  destruct (decide (z = lo)) as [->|Hne]; [done|].
  apply (IH (lo + 1)); [done | lia].
Qed.

(** On the integers from -4096 to 4096 the handler's binary64 computation
    of the PNG level is the exact formula of the specification. *)
Lemma pngCompressionLevel_exact (q : Z) :
  -4096 ≤ q ≤ 4096 →
  pngCompressionLevel (of_Z q) = of_Z (spec_pngCompressionLevel q).
Proof.
  intros Hq. apply number_eqb_eq.
  change (level_agrees q = true).
  apply (all_from_spec level_agrees (Z.to_nat 8193) (-4096)).
  - vm_compute. reflexivity.
  - rewrite Z2Nat.id; lia.
Qed.

(** *** Running the [try] block *)

Ltac run_try :=
  unfold try_block, fetchBlob, returned, may_throw, throw, assign, record_call,
    read, mbind, mret, Try_bind, Try_ret, initial_state.

Ltac split_run :=
  repeat (case_match; simplify_eq/=; try done).

Ltac pick :=
  first
    [ eassumption | reflexivity
    | match goal with H : negb ?b = true |- ?b = false => by apply negb_true_iff end
    | split; [pick | pick]
    | eexists; pick
    | left; pick
    | right; pick ].

(** When the block throws, [updatedImageFile] holds the status set at the
    start and, from the encoding step on, the new metadata. *)
Lemma try_block_throws w imageFile settings blobUrl start step error st :
  try_block w imageFile settings blobUrl start initial_state = (inl (step, error), st) →
  updatedImageFile st =
    match step with
    | StepEncode | StepStore =>
        PartialImageFile.set_metadata
          (updated_metadata (ImageFile.metadata imageFile)
             (CompressionSettings.metadata settings))
          processing_only
    | _ => processing_only
    end.
Proof. run_try. intros H. split_run. Qed.

(** The step tag names the collaborator that threw. *)
Lemma try_block_step w imageFile settings blobUrl start step error st :
  try_block w imageFile settings blobUrl start initial_state = (inl (step, error), st) →
  thrown_by w imageFile settings blobUrl step error.
Proof.
  unfold thrown_by. run_try. intros H. split_run; pick.
Qed.

(** When the block returns, it returns the merged record. *)
Lemma try_block_returns w imageFile settings blobUrl start response st :
  try_block w imageFile settings blobUrl start initial_state = (inr response, st) →
  ∃ instance processedBuffer processedBlob format,
    effectiveTargetFormat imageFile settings = Some format ∧
    format ∈ MVP_PROCESS_FORMATS ∧
    toBuffer w instance = inr processedBuffer ∧
    put w ("processed/" +:+ ImageFile.id imageFile +:+ "." +:+ format) processedBuffer
      (PutOptions.mk "public" ("image/" +:+ format) 3600) = inr processedBlob ∧
    response =
      json (ImageFileBody
        (ImageFile.mk (ImageFile.id imageFile) (ImageFile.originalName imageFile)
           (ImageFile.originalSize imageFile) (ImageFile.originalFormat imageFile)
           (Some (byteLength processedBuffer))
           (Some (compressionRatio (ImageFile.originalSize imageFile)
                    (byteLength processedBuffer)))
           completed
           (updated_metadata (ImageFile.metadata imageFile)
              (CompressionSettings.metadata settings))
           (ImageFile.originalMetadata imageFile)
           (Some settings)
           (Some (PutBlobResult.url processedBlob))
           (ImageFile.errorMessage imageFile)
           (Some (sub (Date_now w 1) start))
           (ImageFile.blobUrl imageFile))).
Proof.
  run_try. intros H.
  destruct (effectiveTargetFormat imageFile settings) as [format|] eqn:Hfmt;
    simpl in H; [|split_run].
  split_run.
  all: eexists _, _, _, _; split_and!; [done| |eassumption|eassumption|done].
  all: by match goal with H : negb (bool_decide _) = false |- _ =>
            apply negb_false_iff, bool_decide_eq_true in H end.
Qed.

(** The calls that the block makes carry the effective format. *)
Lemma try_block_calls w imageFile settings blobUrl start result st :
  try_block w imageFile settings blobUrl start initial_state = (result, st) →
  ∀ c, c ∈ calls st →
    match c with
    | CallFetch url => url = blobUrl
    | CallToBuffer instance =>
        SharpInstance.output instance =
          output_for (effectiveTargetFormat imageFile settings) settings
    | CallPut pathname _ options =>
        pathname = "processed/" +:+ ImageFile.id imageFile +:+ "."
                     +:+ JsString.show (effectiveTargetFormat imageFile settings) ∧
        PutOptions.contentType options =
          "image/" +:+ JsString.show (effectiveTargetFormat imageFile settings)
    end.
Proof.
  run_try. unfold output_for. intros H. split_run.
  all: intros c Hc; set_unfold in Hc; destruct_or?; simplify_eq/=; done.
Qed.

(** *** The handler on a request that passes the precondition *)

Lemma POST_run_passes w request imageFile settings blobUrl :
  passes_precondition request imageFile settings blobUrl →
  POST_run w request =
    match try_block w imageFile settings blobUrl (Date_now w 0) initial_state with
    | (inl (_, error), st) =>
        (Responded
           (json_status
              (ImageFileBody
                 (spread imageFile
                    (PartialImageFile.set_processingTimeMs
                       (sub (Date_now w 1) (Date_now w 0))
                       (PartialImageFile.set_errorMessage (message_of error)
                          (PartialImageFile.set_status failed (updatedImageFile st))))))
              500),
         calls st)
    | (inr response, st) => (Responded response, calls st)
    end.
Proof.
  intros (Hjson & Hurl & Hne). unfold POST_run. rewrite Hjson. simpl.
  rewrite Hurl. simpl.
  destruct blobUrl as [|a blobUrl]; [done|]. simpl.
  unfold try_catch.
  destruct (try_block _ _ _ _ _ _) as [[[step error]|response] st]; done.
Qed.

Lemma POST_throws w request imageFile settings blobUrl step error st :
  passes_precondition request imageFile settings blobUrl →
  try_block w imageFile settings blobUrl (Date_now w 0) initial_state
    = (inl (step, error), st) →
  POST w request =
    Responded
      {| http_status := 500;
         body := ImageFileBody
           (failed_record imageFile
              match step with
              | StepEncode | StepStore =>
                  updated_metadata (ImageFile.metadata imageFile)
                    (CompressionSettings.metadata settings)
              | _ => ImageFile.metadata imageFile
              end
              (message_of error) (sub (Date_now w 1) (Date_now w 0))) |}.
Proof.
  intros Hpre Hrun. unfold POST. rewrite (POST_run_passes _ _ _ _ _ Hpre), Hrun.
  simpl. rewrite (try_block_throws _ _ _ _ _ _ _ _ Hrun).
  by destruct imageFile, step.
Qed.

Lemma POST_returns w request imageFile settings blobUrl response :
  passes_precondition request imageFile settings blobUrl →
  POST w request = Responded response →
  http_status response = 200 →
  ∃ st, try_block w imageFile settings blobUrl (Date_now w 0) initial_state
          = (inr response, st).
Proof.
  intros Hpre. unfold POST. rewrite (POST_run_passes _ _ _ _ _ Hpre).
  destruct (try_block _ _ _ _ _ _) as [[[step error]|response'] st]; simpl.
  - intros [= <-]. done.
  - intros [= <-] _. by exists st.
Qed.

(** The response is 500 exactly when the block threw. *)
Lemma POST_status w request imageFile settings blobUrl response :
  passes_precondition request imageFile settings blobUrl →
  POST w request = Responded response →
  (http_status response = 200 ∨ http_status response = 500) ∧
  (http_status response = 500 ↔
   ∃ step error st,
     try_block w imageFile settings blobUrl (Date_now w 0) initial_state
       = (inl (step, error), st)).
Proof.
  intros Hpre Hpost.
  destruct (try_block w imageFile settings blobUrl (Date_now w 0) initial_state)
    as [[[step error]|response'] st] eqn:Hrun.
  - rewrite (POST_throws _ _ _ _ _ _ _ _ Hpre Hrun) in Hpost. injection Hpost as <-.
    split; [by right|]. split; [by eauto|done].
  - unfold POST in Hpost. rewrite (POST_run_passes _ _ _ _ _ Hpre), Hrun in Hpost.
    injection Hpost as <-.
    destruct (try_block_returns _ _ _ _ _ _ _ Hrun)
      as (instance & processed & blob & format & _ & _ & _ & _ & ->).
    split; [by left|]. split; [done|by intros (? & ? & ? & ?)].
Qed.

Lemma webp_is_unsupported w imageFile settings blobUrl start :
  CompressionSettings.targetFormat settings = webp →
  ∃ step error st,
    try_block w imageFile settings blobUrl start initial_state = (inl (step, error), st) ∧
    (∀ response input,
       fetch w blobUrl = inr response →
       FetchResponse.ok response = true →
       FetchResponse.arrayBuffer response = inr input →
       sharp_throws w input = None →
       error = ErrorObject
         "Unsupported target format for MVP: webp. Only jpeg and png are supported initially.").
Proof.
  intros Hwebp.
  assert (effectiveTargetFormat imageFile settings = Some "webp") as Heff
    by (unfold effectiveTargetFormat; by rewrite Hwebp).
  run_try. rewrite Heff. simpl.
  destruct (fetch w blobUrl) as [e|response] eqn:Hfetch; simpl;
    [eexists _, _, _; split; [done|]; intros; congruence|].
  destruct (FetchResponse.ok response) eqn:Hok; simpl;
    [|eexists _, _, _; split; [done|]; intros; congruence].
  destruct (FetchResponse.arrayBuffer response) as [e|input] eqn:Hbuf; simpl;
    [eexists _, _, _; split; [done|]; intros; congruence|].
  destruct (sharp_throws w input) as [e|] eqn:Hsharp; simpl;
    eexists _, _, _; (split; [done|]); intros; first [congruence|reflexivity].
Qed.

(** *** The failure path *)

(** C1: a process request that passes the precondition is always answered
    by a response.  Whatever the [try] block throws, at the fetch, at the
    format check, while the codec is set up, at the encoding or at the
    store, reaches the one [catch] clause: the response then has status
    500 and carries the input record with [status = failed],
    [errorMessage] the message of the thrown [Error] (or
    ["Unknown processing error"] for a thrown value that is no [Error])
    and [processingTimeMs] the time elapsed; its metadata is the input's
    or, from the encoding step on, the one already overwritten.  A request
    for [webp] always ends in this way, with the unsupported-format
    message once the original was fetched. *)
Theorem process_exceptions_are_caught w request imageFile settings blobUrl :
  passes_precondition request imageFile settings blobUrl →
  ∃ response,
    POST w request = Responded response ∧
    (∀ step error st,
       try_block w imageFile settings blobUrl (Date_now w 0) initial_state
         = (inl (step, error), st) →
       thrown_by w imageFile settings blobUrl step error ∧
       ∃ metadata,
         (metadata = ImageFile.metadata imageFile ∨
          metadata = updated_metadata (ImageFile.metadata imageFile)
                       (CompressionSettings.metadata settings)) ∧
         response =
           {| http_status := 500;
              body := ImageFileBody
                (failed_record imageFile metadata
                   match error with
                   | ErrorObject message => message
                   | OtherValue => "Unknown processing error"
                   end
                   (sub (Date_now w 1) (Date_now w 0))) |}) ∧
    (CompressionSettings.targetFormat settings = webp →
       ∃ error,
         response =
           {| http_status := 500;
              body := ImageFileBody
                (failed_record imageFile (ImageFile.metadata imageFile)
                   (message_of error) (sub (Date_now w 1) (Date_now w 0))) |} ∧
         (∀ fetched input,
            fetch w blobUrl = inr fetched →
            FetchResponse.ok fetched = true →
            FetchResponse.arrayBuffer fetched = inr input →
            sharp_throws w input = None →
            error = ErrorObject
              "Unsupported target format for MVP: webp. Only jpeg and png are supported initially.")).
Proof.
  intros Hpre.
  destruct (try_block w imageFile settings blobUrl (Date_now w 0) initial_state)
    as [[[step error]|response] st] eqn:Hrun.
  - eexists. split; [by apply (POST_throws _ _ _ _ _ _ _ _ Hpre Hrun)|]. split.
    + intros step' error' st' [= <- <- <-].
      split; [by apply (try_block_step _ _ _ _ _ _ _ _ Hrun)|].
      eexists. split; [|reflexivity]. destruct step; auto.
    + intros Hwebp.
      destruct (webp_is_unsupported w imageFile settings blobUrl (Date_now w 0) Hwebp)
        as (step' & error' & st' & Hrun' & Hmsg).
      rewrite Hrun in Hrun'. injection Hrun' as <- <- <-.
      exists error. split; [|done].
      pose proof (try_block_step _ _ _ _ _ _ _ _ Hrun) as Hby.
      destruct step; try done.
      * destruct Hby as [instance Hby].
        revert Hrun. run_try. unfold effectiveTargetFormat. rewrite Hwebp. simpl.
        intros Hrun. split_run.
      * destruct Hby as (pathname & processed & options & Hby).
        revert Hrun. run_try. unfold effectiveTargetFormat. rewrite Hwebp. simpl.
        intros Hrun. split_run.
  - exists response. split.
    + unfold POST. by rewrite (POST_run_passes _ _ _ _ _ Hpre), Hrun.
    + split; [done|]. intros Hwebp.
      destruct (webp_is_unsupported w imageFile settings blobUrl (Date_now w 0) Hwebp)
        as (step' & error' & st' & Hrun' & _).
      congruence.
Qed.

Lemma process_exceptions_are_caught_witness :
  ∃ response,
    POST Sample.world_fetch_fails
      (Sample.request (Sample.record 1000) (Sample.settings 80 webp))
      = Responded response ∧
    http_status response = 500 ∧
    body response =
      ImageFileBody
        (failed_record (Sample.record 1000) (ImageFile.metadata (Sample.record 1000))
           "Failed to fetch blob: Not Found" (of_Z 25)).
Proof.
  destruct (process_exceptions_are_caught Sample.world_fetch_fails
              (Sample.request (Sample.record 1000) (Sample.settings 80 webp))
              (Sample.record 1000) (Sample.settings 80 webp) Sample.blobUrl)
    as (response & Hpost & _ & Hwebp).
  - split_and!; done.
  - exists response. split; [exact Hpost|].
    destruct (Hwebp eq_refl) as (error & -> & _).
    revert Hpost. vm_compute. intros [= <-]. split; reflexivity.
Defined.

(** C10: when the [try] block throws at the encoding or at the store, the
    failed record already carries the title and the description of the
    request (and keeps the other metadata of the input record), because
    the metadata is assigned before [toBuffer] is called; when it throws
    at the fetch, at the format check or while the codec is set up
    ([sharp()], [.jpeg()], [.png()], [.withMetadata()]), the failed
    record has the metadata of the input record. *)
Theorem failed_attempt_metadata w request imageFile settings blobUrl step error st :
  passes_precondition request imageFile settings blobUrl →
  try_block w imageFile settings blobUrl (Date_now w 0) initial_state
    = (inl (step, error), st) →
  thrown_by w imageFile settings blobUrl step error ∧
  ∃ final,
    POST w request = Responded {| http_status := 500; body := ImageFileBody final |} ∧
    ImageFile.status final = failed ∧
    match step with
    | StepEncode | StepStore =>
        ImageMetadata.title (ImageFile.metadata final)
          = ImageMetadata.title (CompressionSettings.metadata settings) ∧
        ImageMetadata.description (ImageFile.metadata final)
          = ImageMetadata.description (CompressionSettings.metadata settings) ∧
        ImageMetadata.author (ImageFile.metadata final)
          = ImageMetadata.author (ImageFile.metadata imageFile) ∧
        ImageMetadata.copyright (ImageFile.metadata final)
          = ImageMetadata.copyright (ImageFile.metadata imageFile) ∧
        ImageMetadata.keywords (ImageFile.metadata final)
          = ImageMetadata.keywords (ImageFile.metadata imageFile) ∧
        ImageMetadata.customFields (ImageFile.metadata final)
          = ImageMetadata.customFields (ImageFile.metadata imageFile)
    | StepFetch | StepFormat | StepPipeline =>
        ImageFile.metadata final = ImageFile.metadata imageFile
    end.
Proof.
  intros Hpre Hrun.
  split; [by apply (try_block_step _ _ _ _ _ _ _ _ Hrun)|].
  eexists. split; [by apply (POST_throws _ _ _ _ _ _ _ _ Hpre Hrun)|].
  split; [done|]. by destruct step.
Qed.

Lemma failed_attempt_metadata_witness :
  ∃ final,
    POST Sample.world_encode_fails
      (Sample.request (Sample.record 1000) (Sample.settings 80 original))
      = Responded {| http_status := 500; body := ImageFileBody final |} ∧
    ImageMetadata.title (ImageFile.metadata (Sample.record 1000)) = None ∧
    ImageMetadata.title (ImageFile.metadata final) = Some "Sunset".
Proof.
  destruct (failed_attempt_metadata Sample.world_encode_fails
              (Sample.request (Sample.record 1000) (Sample.settings 80 original))
              (Sample.record 1000) (Sample.settings 80 original) Sample.blobUrl
              StepEncode
              (ErrorObject "Input buffer contains unsupported image format")
              (snd (try_block Sample.world_encode_fails (Sample.record 1000)
                      (Sample.settings 80 original) Sample.blobUrl
                      (Date_now Sample.world_encode_fails 0) initial_state)))
    as (_ & final & Hpost & _ & Htitle & _).
  - split_and!; done.
  - vm_compute. reflexivity.
  - exists final. split_and!; [exact Hpost | reflexivity | exact Htitle].
Defined.

(** C10, the claim as worded fails: it names the fetch and the format
    check as the only steps whose failure leaves the metadata as it was.
    Here the original is fetched and the format, [jpeg], is supported,
    but [.jpeg()] refuses the quality 0; that throw comes before the
    metadata is assigned, so the failed record has the metadata of the
    input and not the title of the request. *)
Lemma failed_attempt_metadata_counterexample :
  let w := Sample.world_options_refused in
  let imageFile := Sample.record 1000 in
  let settings := Sample.settings 0 jpeg in
  ∃ error st final,
    try_block w imageFile settings Sample.blobUrl (Date_now w 0) initial_state
      = (inl (StepPipeline, error), st) ∧
    calls st = [CallFetch Sample.blobUrl] ∧
    includes MVP_PROCESS_FORMATS (effectiveTargetFormat imageFile settings) = true ∧
    POST w (Sample.request imageFile settings)
      = Responded {| http_status := 500; body := ImageFileBody final |} ∧
    ImageFile.status final = failed ∧
    ImageFile.metadata final = ImageFile.metadata imageFile ∧
    ImageMetadata.title (ImageFile.metadata final) = None ∧
    ImageMetadata.title (CompressionSettings.metadata settings) = Some "Sunset".
Proof.
  cbv zeta. eexists _, _, _. split_and!; vm_compute; reflexivity.
Qed.

(** *** The success path *)

(** C8: in the record of a successful response the title and the
    description of the metadata are those of the request, every other
    metadata property is that of the input record, and [id],
    [originalName], [originalSize], [originalFormat] and [blobUrl] are
    those of the input record. *)
Theorem success_preserves_record w request imageFile settings blobUrl final :
  passes_precondition request imageFile settings blobUrl →
  POST w request = Responded {| http_status := 200; body := ImageFileBody final |} →
  (ImageMetadata.title (ImageFile.metadata final)
     = ImageMetadata.title (CompressionSettings.metadata settings) ∧
   ImageMetadata.description (ImageFile.metadata final)
     = ImageMetadata.description (CompressionSettings.metadata settings)) ∧
  (ImageMetadata.author (ImageFile.metadata final)
     = ImageMetadata.author (ImageFile.metadata imageFile) ∧
   ImageMetadata.copyright (ImageFile.metadata final)
     = ImageMetadata.copyright (ImageFile.metadata imageFile) ∧
   ImageMetadata.keywords (ImageFile.metadata final)
     = ImageMetadata.keywords (ImageFile.metadata imageFile) ∧
   ImageMetadata.customFields (ImageFile.metadata final)
     = ImageMetadata.customFields (ImageFile.metadata imageFile)) ∧
  (ImageFile.id final = ImageFile.id imageFile ∧
   ImageFile.originalName final = ImageFile.originalName imageFile ∧
   ImageFile.originalSize final = ImageFile.originalSize imageFile ∧
   ImageFile.originalFormat final = ImageFile.originalFormat imageFile ∧
   ImageFile.blobUrl final = ImageFile.blobUrl imageFile).
Proof.
  intros Hpre Hpost.
  destruct (POST_returns _ _ _ _ _ _ Hpre Hpost eq_refl) as [st Hrun].
  destruct (try_block_returns _ _ _ _ _ _ _ Hrun)
    as (instance & processed & blob & format & _ & _ & _ & _ & [= ->]).
  done.
Qed.

Lemma success_preserves_record_witness :
  ∃ final,
    POST Sample.world (Sample.request (Sample.record 1000) (Sample.settings 80 original))
      = Responded {| http_status := 200; body := ImageFileBody final |} ∧
    ImageFile.metadata final
      = ImageMetadata.mk (Some "Sunset") (Some "Over the bay") (Some "Ansel") None None None ∧
    ImageFile.id final = "uploads/V1StGXR8.png".
Proof.
  eexists. split; [vm_compute; reflexivity|].
  destruct (success_preserves_record Sample.world
              (Sample.request (Sample.record 1000) (Sample.settings 80 original))
              (Sample.record 1000) (Sample.settings 80 original) Sample.blobUrl
              _ ltac:(split_and!; done) ltac:(vm_compute; reflexivity))
    as (_ & _ & Hid & _).
  split; [reflexivity | exact Hid].
Defined.

(** C6: in the record of a successful response, [compressionRatio] is
    [(1 - compressedSize / originalSize) * 100], computed in binary64,
    when [originalSize > 0], and [0] otherwise; for an original of 1000
    bytes compressed to 400 it is exactly 60, and for [originalSize = 0]
    it is 0, the request being answered as any other. *)
Theorem compression_ratio_formula w request imageFile settings blobUrl final :
  passes_precondition request imageFile settings blobUrl →
  POST w request = Responded {| http_status := 200; body := ImageFileBody final |} →
  ∃ compressed,
    ImageFile.compressedSize final = Some compressed ∧
    (gtb (ImageFile.originalSize imageFile) (of_Z 0) = true →
     ImageFile.compressionRatio final =
       Some (mul (sub (of_Z 1) (div compressed (ImageFile.originalSize imageFile)))
               (of_Z 100))) ∧
    (gtb (ImageFile.originalSize imageFile) (of_Z 0) = false →
     ImageFile.compressionRatio final = Some (of_Z 0)) ∧
    (ImageFile.originalSize imageFile = of_Z 1000 → compressed = of_Z 400 →
     ImageFile.compressionRatio final = Some (of_Z 60)) ∧
    (ImageFile.originalSize imageFile = of_Z 0 →
     ImageFile.compressionRatio final = Some (of_Z 0)).
Proof.
  intros Hpre Hpost.
  destruct (POST_returns _ _ _ _ _ _ Hpre Hpost eq_refl) as [st Hrun].
  destruct (try_block_returns _ _ _ _ _ _ _ Hrun)
    as (instance & processed & blob & format & _ & _ & _ & _ & [= ->]).
  exists (byteLength processed).
  cbn [ImageFile.compressedSize ImageFile.compressionRatio]. unfold compressionRatio.
  split_and!; [done| | | |].
  - intros Hgt. by rewrite Hgt.
  - intros Hgt. by rewrite Hgt.
  - intros Hsize Hcompressed. rewrite Hsize, Hcompressed. vm_compute. reflexivity.
  - intros Hsize. rewrite Hsize. vm_compute. reflexivity.
Qed.

Lemma compression_ratio_formula_witness :
  (∃ final,
     POST Sample.world (Sample.request (Sample.record 1000) (Sample.settings 80 original))
       = Responded {| http_status := 200; body := ImageFileBody final |} ∧
     ImageFile.compressedSize final = Some (of_Z 400) ∧
     ImageFile.compressionRatio final = Some (of_Z 60)) ∧
  (∃ final,
     POST Sample.world (Sample.request (Sample.record 0) (Sample.settings 80 original))
       = Responded {| http_status := 200; body := ImageFileBody final |} ∧
     ImageFile.compressionRatio final = Some (of_Z 0)).
Proof.
  split.
  - eexists. split; [vm_compute; reflexivity|].
    destruct (compression_ratio_formula Sample.world
                (Sample.request (Sample.record 1000) (Sample.settings 80 original))
                (Sample.record 1000) (Sample.settings 80 original) Sample.blobUrl
                _ ltac:(split_and!; done) ltac:(vm_compute; reflexivity))
      as (compressed & Hsize & _ & _ & Hratio & _).
    split; [reflexivity|]. apply Hratio; [reflexivity|].
    injection Hsize as <-. vm_compute. reflexivity.
  - eexists. split; [vm_compute; reflexivity|].
    destruct (compression_ratio_formula Sample.world
                (Sample.request (Sample.record 0) (Sample.settings 80 original))
                (Sample.record 0) (Sample.settings 80 original) Sample.blobUrl
                _ ltac:(split_and!; done) ltac:(vm_compute; reflexivity))
      as (compressed & _ & _ & _ & _ & Hzero).
    apply Hzero. reflexivity.
Defined.

(** *** The effective target format and the codec options *)

Lemma split_without_separator sep s :
  JsString.includes sep s = false → JsString.split sep s = [s].
Proof.
  induction s as [|c s IH]; simpl; [done|].
  intros [Hc Hs]%orb_false_elim. rewrite Hc, (IH Hs). done.
Qed.

Lemma split_at_first_separator sep s rest :
  JsString.includes sep s = false →
  JsString.split sep (s +:+ String sep rest) = s :: JsString.split sep rest.
Proof.
  induction s as [|c s IH]; simpl.
  - intros _. by rewrite Ascii.eqb_refl.
  - intros [Hc Hs]%orb_false_elim. rewrite Hc, (IH Hs). done.
Qed.

Lemma POST_run_calls w request imageFile settings blobUrl :
  passes_precondition request imageFile settings blobUrl →
  ∀ c, c ∈ (POST_run w request).2 →
    match c with
    | CallFetch url => url = blobUrl
    | CallToBuffer instance =>
        SharpInstance.output instance =
          output_for (effectiveTargetFormat imageFile settings) settings
    | CallPut pathname _ options =>
        pathname = "processed/" +:+ ImageFile.id imageFile +:+ "."
                     +:+ JsString.show (effectiveTargetFormat imageFile settings) ∧
        PutOptions.contentType options =
          "image/" +:+ JsString.show (effectiveTargetFormat imageFile settings)
    end.
Proof.
  intros Hpre. rewrite (POST_run_passes _ _ _ _ _ Hpre).
  destruct (try_block w imageFile settings blobUrl (Date_now w 0) initial_state)
    as [result st] eqn:Hrun.
  pose proof (try_block_calls _ _ _ _ _ _ _ Hrun) as Hcalls.
  by destruct result as [[step error]|response].
Qed.

(** C5: the effective target format of a process request is the requested
    format when that is not [original], and the subtype of the record's
    original MIME type when it is; it is the format of the codec options
    and of the stored object.  For [original] and [image/png] it is
    [png], and the image is encoded with the PNG options. *)
Theorem effective_target_format w request imageFile settings blobUrl :
  passes_precondition request imageFile settings blobUrl →
  (CompressionSettings.targetFormat settings ≠ original →
   effectiveTargetFormat imageFile settings
     = Some (TargetFormat_to_string (CompressionSettings.targetFormat settings))) ∧
  (∀ type subtype,
     CompressionSettings.targetFormat settings = original →
     ImageFile.originalFormat imageFile = type +:+ "/" +:+ subtype →
     JsString.includes "/" type = false →
     JsString.includes "/" subtype = false →
     effectiveTargetFormat imageFile settings = Some subtype) ∧
  (∀ c, c ∈ (POST_run w request).2 →
     match c with
     | CallFetch _ => True
     | CallToBuffer instance =>
         SharpInstance.output instance =
           if bool_decide (effectiveTargetFormat imageFile settings = Some "jpeg")
           then Some (JpegOptions (CompressionSettings.quality settings))
           else if bool_decide (effectiveTargetFormat imageFile settings = Some "png")
           then Some (PngOptions (pngCompressionLevel (CompressionSettings.quality settings)))
           else None
     | CallPut pathname _ options =>
         pathname = "processed/" +:+ ImageFile.id imageFile +:+ "."
                      +:+ JsString.show (effectiveTargetFormat imageFile settings) ∧
         PutOptions.contentType options =
           "image/" +:+ JsString.show (effectiveTargetFormat imageFile settings)
     end) ∧
  (CompressionSettings.targetFormat settings = original →
   ImageFile.originalFormat imageFile = "image/png" →
   effectiveTargetFormat imageFile settings = Some "png" ∧
   ∀ instance, CallToBuffer instance ∈ (POST_run w request).2 →
     ∃ level, SharpInstance.output instance = Some (PngOptions level)).
Proof.
  intros Hpre. split_and!.
  - unfold effectiveTargetFormat. by destruct (CompressionSettings.targetFormat settings).
  - intros type subtype Horiginal Hformat Htype Hsubtype.
    unfold effectiveTargetFormat. rewrite Horiginal, Hformat.
    change ("/" +:+ subtype) with (String "/" subtype).
    rewrite (split_at_first_separator _ _ _ Htype).
    by rewrite (split_without_separator _ _ Hsubtype).
  - intros c Hc. pose proof (POST_run_calls w _ _ _ _ Hpre c Hc) as H.
    by destruct c.
  - intros Horiginal Hformat.
    assert (effectiveTargetFormat imageFile settings = Some "png") as Heff
      by (unfold effectiveTargetFormat; by rewrite Horiginal, Hformat).
    split; [done|]. intros instance Hc.
    pose proof (POST_run_calls w _ _ _ _ Hpre _ Hc) as H. simpl in H.
    rewrite Heff in H. eexists. rewrite H. reflexivity.
Qed.

Lemma effective_target_format_witness :
  effectiveTargetFormat (Sample.record 1000) (Sample.settings 80 original) = Some "png" ∧
  ∃ instance,
    CallToBuffer instance ∈
      (POST_run Sample.world
         (Sample.request (Sample.record 1000) (Sample.settings 80 original))).2 ∧
    ∃ level, SharpInstance.output instance = Some (PngOptions level).
Proof.
  destruct (effective_target_format Sample.world
              (Sample.request (Sample.record 1000) (Sample.settings 80 original))
              (Sample.record 1000) (Sample.settings 80 original) Sample.blobUrl)
    as (_ & _ & _ & Hpng).
  - split_and!; done.
  - destruct (Hpng eq_refl eq_refl) as [Heff Hcalls]. split; [exact Heff|].
    eexists. split; [|apply Hcalls].
    all: vm_compute; apply list_elem_of_further, list_elem_of_here.
Defined.

(** C2: when the effective target format of a process request is [png],
    the compression level given to the PNG encoder is
    [max(0, min(9, round((100 - quality) / 10)))] of the request's
    quality; for an integer quality this is the exact
    [clamp(round((100 - quality) / 10), 0, 9)], so that quality 100 gives
    level 0, quality 60 level 4, quality 70 level 3, and quality 0 the
    clamped level 9.  The encoder is called with that level whenever the
    steps before the encoding do not throw. *)
Theorem png_level_of_quality w request imageFile settings blobUrl :
  passes_precondition request imageFile settings blobUrl →
  effectiveTargetFormat imageFile settings = Some "png" →
  ∃ level,
    level = Math_max (of_Z 0)
              (Math_min (of_Z 9)
                 (Math_round
                    (div (sub (of_Z 100) (CompressionSettings.quality settings))
                       (of_Z 10)))) ∧
    (∀ instance, CallToBuffer instance ∈ (POST_run w request).2 →
       SharpInstance.output instance = Some (PngOptions level)) ∧
    (∀ fetched input,
       fetch w blobUrl = inr fetched →
       FetchResponse.ok fetched = true →
       FetchResponse.arrayBuffer fetched = inr input →
       sharp_throws w input = None →
       png_throws w level = None →
       withMetadata_throws w (metadataToEmbed (CompressionSettings.metadata settings)) = None →
       ∃ instance, CallToBuffer instance ∈ (POST_run w request).2) ∧
    (∀ q, -4096 ≤ q ≤ 4096 →
       CompressionSettings.quality settings = of_Z q →
       level = of_Z (spec_pngCompressionLevel q)) ∧
    (CompressionSettings.quality settings = of_Z 100 → level = of_Z 0) ∧
    (CompressionSettings.quality settings = of_Z 60 → level = of_Z 4) ∧
    (CompressionSettings.quality settings = of_Z 70 → level = of_Z 3) ∧
    (CompressionSettings.quality settings = of_Z 0 → level = of_Z 9).
Proof.
  intros Hpre Heff.
  exists (pngCompressionLevel (CompressionSettings.quality settings)).
  split_and!.
  - done.
  - intros instance Hc.
    pose proof (POST_run_calls w _ _ _ _ Hpre _ Hc) as H. simpl in H.
    by rewrite Heff in H.
  - intros fetched input Hfetch Hok Hbuffer Hsharp Hpng Hmeta.
    rewrite (POST_run_passes _ _ _ _ _ Hpre).
    destruct (try_block w imageFile settings blobUrl (Date_now w 0) initial_state)
      as [result st] eqn:Hrun.
    revert Hrun. run_try. rewrite Heff, Hfetch. simpl. rewrite Hok, Hbuffer. simpl.
    rewrite Hsharp. simpl. rewrite Hpng. simpl. rewrite Hmeta.
    intros Hrun. split_run; eexists; apply list_elem_of_further, list_elem_of_here.
  - intros q Hq ->. by apply pngCompressionLevel_exact.
  - intros ->. vm_compute. reflexivity.
  - intros ->. vm_compute. reflexivity.
  - intros ->. vm_compute. reflexivity.
  - intros ->. vm_compute. reflexivity.
Qed.

Lemma png_level_of_quality_witness :
  ∃ instance,
    CallToBuffer instance ∈
      (POST_run Sample.world
         (Sample.request (Sample.record 1000) (Sample.settings 60 png))).2 ∧
    SharpInstance.output instance = Some (PngOptions (of_Z 4)).
Proof.
  destruct (png_level_of_quality Sample.world
              (Sample.request (Sample.record 1000) (Sample.settings 60 png))
              (Sample.record 1000) (Sample.settings 60 png) Sample.blobUrl)
    as (level & _ & Hcalls & Hcalled & _ & _ & Hsixty & _).
  - split_and!; done.
  - reflexivity.
  - destruct (Hcalled _ _ eq_refl eq_refl eq_refl eq_refl eq_refl eq_refl)
      as [instance Hin].
    exists instance. split; [exact Hin|].
    rewrite (Hcalls _ Hin), (Hsixty eq_refl). reflexivity.
Defined.

(** *** Reprocessing a record *)

(** C7 (the handler keeps stale properties): a record that failed before
    and is processed again with success comes back [completed] with the
    [errorMessage] of the earlier failure; a record that was completed
    before and fails on reprocessing comes back [failed] with the
    [downloadUrl] of the earlier success. *)
Theorem reprocessing_keeps_stale_properties :
  (∃ final,
     POST Sample.world
       (Sample.request Sample.record_after_failure (Sample.settings 80 original))
       = Responded {| http_status := 200; body := ImageFileBody final |} ∧
     ImageFile.status final = completed ∧
     ImageFile.errorMessage final = Some "Failed to fetch blob: Not Found" ∧
     is_Some (ImageFile.downloadUrl final)) ∧
  (∃ final,
     POST Sample.world_fetch_fails
       (Sample.request Sample.record_after_success (Sample.settings 80 original))
       = Responded {| http_status := 500; body := ImageFileBody final |} ∧
     ImageFile.status final = failed ∧
     ImageFile.downloadUrl final
       = Some "https://blob.example/processed/uploads/V1StGXR8.png.png" ∧
     is_Some (ImageFile.errorMessage final)).
Proof.
  split; eexists; (split; [vm_compute; reflexivity|]); simpl; eauto.
Qed.

(** For a record that carries neither a [downloadUrl] nor an
    [errorMessage] when it is sent, the two properties do follow the
    status of the response. *)
Lemma first_attempt_properties w request imageFile settings blobUrl response final :
  passes_precondition request imageFile settings blobUrl →
  ImageFile.downloadUrl imageFile = None →
  ImageFile.errorMessage imageFile = None →
  POST w request = Responded response →
  body response = ImageFileBody final →
  (is_Some (ImageFile.downloadUrl final) → ImageFile.status final = completed) ∧
  (is_Some (ImageFile.errorMessage final) → ImageFile.status final = failed).
Proof.
  intros Hpre Hurl Hmsg Hpost Hbody.
  destruct (try_block w imageFile settings blobUrl (Date_now w 0) initial_state)
    as [[[step error]|response'] st] eqn:Hrun.
  - rewrite (POST_throws _ _ _ _ _ _ _ _ Hpre Hrun) in Hpost.
    injection Hpost as <-. injection Hbody as <-. simpl. rewrite Hurl.
    split; [by intros [? ?]|done].
  - unfold POST in Hpost. rewrite (POST_run_passes _ _ _ _ _ Hpre), Hrun in Hpost.
    injection Hpost as <-.
    destruct (try_block_returns _ _ _ _ _ _ _ Hrun)
      as (instance & processed & blob & format & _ & _ & _ & _ & ->).
    injection Hbody as <-. simpl. rewrite Hmsg.
    split; [done|by intros [? ?]].
Qed.

(** ** Properties of the upload handler *)

Import Upload.

(** A rejected file adds one message to [errors] and nothing else. *)
Lemma upload_file_rejected w st file :
  rejected file →
  upload_file w st file =
    push_error
      (if bool_decide (File.type file ∈ ALLOWED_MIME_TYPES)
       then too_large_message file else unsupported_message file)
      st.
Proof.
  intros Hrej. unfold upload_file.
  destruct (bool_decide_reflect (File.type file ∈ ALLOWED_MIME_TYPES)) as [Hin|Hout];
    simpl; [|done].
  destruct Hrej as [Hout|Hlarge]; [done|].
  apply Z.ltb_lt in Hlarge. by rewrite Hlarge.
Qed.

(** A write is attempted only for a file that passed the validation. *)
Lemma upload_file_puts w st file :
  puts (upload_file w st file) = puts st ∨
  (¬ rejected file ∧ ∃ c, PutCall.body c = file ∧ puts (upload_file w st file) = puts st ++ [c]).
Proof.
  unfold upload_file.
  destruct (bool_decide_reflect (File.type file ∈ ALLOWED_MIME_TYPES)) as [Hin|Hout];
    simpl; [|by left].
  destruct (Z.ltb_spec MAX_FILE_SIZE_BYTES (File.size file)) as [Hlarge|Hfits];
    [by left|].
  right. split; [intros [?|?]; [done|lia]|].
  eexists. split; [|by destruct (Upload.put w _ _ _ _)]. done.
Qed.

(** One iteration adds exactly one entry to exactly one of the arrays. *)
Lemma upload_file_lengths w st file :
  (length (uploadedFilesInfo (upload_file w st file))
   + length (errors (upload_file w st file))
   = S (length (uploadedFilesInfo st) + length (errors st)))%nat.
Proof.
  unfold upload_file. repeat case_match; simpl; rewrite ?length_app; simpl; lia.
Qed.

(** What an iteration adds depends on the state only through the number
    of writes made so far. *)
Lemma upload_file_frame w st file :
  upload_file w st file =
    let r := upload_file w (fresh_arrays st) file in
    {| uploadedFilesInfo := uploadedFilesInfo st ++ uploadedFilesInfo r;
       errors := errors st ++ errors r;
       puts := puts r |}.
Proof.
  unfold upload_file, fresh_arrays, push_error, push_uploaded, record_put.
  destruct st as [u e p]. simpl.
  repeat case_match; simplify_eq/=; by rewrite ?app_nil_r.
Qed.

Lemma upload_loop_frame w files :
  ∀ st,
    upload_loop w files st =
      let r := upload_loop w files (fresh_arrays st) in
      {| uploadedFilesInfo := uploadedFilesInfo st ++ uploadedFilesInfo r;
         errors := errors st ++ errors r;
         puts := puts r |}.
Proof.
  unfold upload_loop.
  induction files as [|file files IH]; intros st; simpl.
  - destruct st. by rewrite !app_nil_r.
  - rewrite IH. rewrite (IH (upload_file w (fresh_arrays st) file)).
    rewrite (upload_file_frame w st file). simpl.
    by rewrite !app_assoc.
Qed.

Lemma upload_loop_lengths w files :
  ∀ st,
    (length (uploadedFilesInfo (upload_loop w files st))
     + length (errors (upload_loop w files st))
     = length files + (length (uploadedFilesInfo st) + length (errors st)))%nat.
Proof.
  unfold upload_loop.
  induction files as [|file files IH]; intros st; simpl; [done|].
  rewrite IH, upload_file_lengths. lia.
Qed.

Lemma upload_loop_puts w files :
  ∀ st,
    (∀ c, c ∈ puts st → ¬ rejected (PutCall.body c)) →
    ∀ c, c ∈ puts (upload_loop w files st) → ¬ rejected (PutCall.body c).
Proof.
  unfold upload_loop.
  induction files as [|file files IH]; intros st Hst; simpl; [done|].
  apply IH. intros c Hc.
  destruct (upload_file_puts w st file) as [Heq|(Hok & c' & Hbody & Heq)];
    rewrite Heq in Hc; [by apply Hst|].
  apply elem_of_app in Hc as [Hc|Hc%list_elem_of_singleton]; [by apply Hst|].
  by subst.
Qed.

Lemma POST_run_nonempty w files :
  files ≠ [] →
  POST_run w files =
    (respond (upload_loop w files initial_state),
     puts (upload_loop w files initial_state)).
Proof. intros Hne. unfold POST_run. by destruct files. Qed.

(** C3: a file of the batch whose declared type is not one of the four
    allowed types, or whose size exceeds the ceiling (10 MB), is skipped:
    its iteration only adds one message to the errors, no write to the
    store is attempted for it (every write of the handler is for a file
    that passed the validation), and the other files of the batch fare
    as they would without it: the same records, the same writes, and the
    same errors apart from the one message. *)
Theorem rejected_file_is_skipped w before file after :
  rejected file →
  let st := upload_loop w before initial_state in
  let with_file := upload_loop w (before ++ file :: after) initial_state in
  let without := upload_loop w (before ++ after) initial_state in
  ∃ message,
    (File.type file ∉ ALLOWED_MIME_TYPES → message = unsupported_message file) ∧
    (File.type file ∈ ALLOWED_MIME_TYPES → message = too_large_message file) ∧
    upload_file w st file =
      {| uploadedFilesInfo := uploadedFilesInfo st;
         errors := errors st ++ [message];
         puts := puts st |} ∧
    (∀ c, c ∈ (POST_run w (before ++ file :: after)).2 →
       ¬ rejected (PutCall.body c) ∧ PutCall.body c ≠ file) ∧
    (POST_run w (before ++ file :: after)).2 = (POST_run w (before ++ after)).2 ∧
    uploadedFilesInfo with_file = uploadedFilesInfo without ∧
    ∃ later,
      errors without = errors st ++ later ∧
      errors with_file = errors st ++ message :: later.
Proof.
  intros Hrej st with_file without.
  pose proof (upload_file_rejected w st file Hrej) as Hfile.
  assert (with_file =
          upload_loop w after (upload_file w st file)) as Hwith
    by (unfold with_file, st, upload_loop; by rewrite fold_left_app).
  assert (without = upload_loop w after st) as Hwithout
    by (unfold without, st, upload_loop; by rewrite fold_left_app).
  rewrite Hfile in Hwith.
  rewrite upload_loop_frame in Hwith. rewrite upload_loop_frame in Hwithout.
  change (fresh_arrays (push_error _ st)) with (fresh_arrays st) in Hwith.
  simpl in Hwith, Hwithout.
  exists (if bool_decide (File.type file ∈ ALLOWED_MIME_TYPES)
          then too_large_message file else unsupported_message file).
  split_and!.
  - intros Hout. by rewrite bool_decide_eq_false_2.
  - intros Hin. by rewrite bool_decide_eq_true_2.
  - exact Hfile.
  - intros c Hc. rewrite POST_run_nonempty in Hc by (by destruct before).
    assert (¬ rejected (PutCall.body c)) as Hok.
    { revert c Hc. apply upload_loop_puts. intros c Hc. by apply elem_of_nil in Hc. }
    split; [done|]. by intros <-.
  - rewrite POST_run_nonempty by (by destruct before).
    destruct (decide (before ++ after = [])) as [Hnil|Hne].
    + apply app_eq_nil in Hnil as [-> ->].
      unfold st, upload_loop in Hfile. cbn [app fold_left] in Hfile.
      unfold upload_loop. cbn [app fold_left]. by rewrite Hfile.
    + rewrite POST_run_nonempty by done. simpl.
      fold with_file without. by rewrite Hwith, Hwithout.
  - by rewrite Hwith, Hwithout.
  - eexists. rewrite Hwith, Hwithout. simpl. split; [done|].
    by rewrite <- app_assoc.
Qed.

Lemma rejected_file_is_skipped_witness :
  (POST_run UploadSample.world
     [UploadSample.photo; UploadSample.animation; UploadSample.logo]).2
  = (POST_run UploadSample.world [UploadSample.photo; UploadSample.logo]).2 ∧
  errors (upload_loop UploadSample.world
            [UploadSample.photo; UploadSample.animation; UploadSample.logo]
            initial_state)
  = ["Unsupported file type: cat.gif (image/gif)"].
Proof.
  destruct (rejected_file_is_skipped UploadSample.world
              [UploadSample.photo] UploadSample.animation [UploadSample.logo])
    as (message & Hmessage & _ & _ & _ & Hputs & _ & later & Hwithout & Hwith).
  - left. compute_done.
  - split; [exact Hputs|].
    etrans; [exact Hwith|].
    rewrite Hmessage by compute_done.
    vm_compute in Hwithout. subst later.
    vm_compute. reflexivity.
Defined.

Lemma respond_cases (st : Upload.State) :
  (uploadedFilesInfo st = [] → errors st ≠ [] →
   respond st =
     {| http_status := 400;
        body := ErrorBody ("Upload failed. Errors: " +:+ JsString.join ", " (errors st)) |}) ∧
  (uploadedFilesInfo st ≠ [] → errors st ≠ [] →
   respond st =
     {| http_status := 207;
        body := MultiStatusBody (uploadedFilesInfo st) (errors st) |}) ∧
  (errors st = [] →
   respond st = {| http_status := 200; body := ImageFilesBody (uploadedFilesInfo st) |}).
Proof.
  unfold respond. destruct (uploadedFilesInfo st), (errors st); simpl; done.
Qed.

(** The guard before the loop: a request without files is refused. *)
Lemma empty_batch_is_refused w :
  POST_run w [] = ({| http_status := 400; body := ErrorBody "No files provided." |}, []).
Proof. reflexivity. Qed.

(** C4: for a batch of files (at least one), each file ends in exactly
    one of the two arrays of the handler.  If every file was rejected the
    response is 400 with the rejection reasons joined in the error; if
    some files succeeded and some did not it is 207 with the records and
    the reasons; if all succeeded it is 200 with the list of records. *)
Theorem upload_response_by_outcome w files :
  files ≠ [] →
  let st := upload_loop w files initial_state in
  (length (uploadedFilesInfo st) + length (errors st) = length files)%nat ∧
  (length (errors st) = length files →
   POST w files =
     {| http_status := 400;
        body := ErrorBody ("Upload failed. Errors: " +:+ JsString.join ", " (errors st)) |}) ∧
  (uploadedFilesInfo st ≠ [] → errors st ≠ [] →
   POST w files =
     {| http_status := 207;
        body := MultiStatusBody (uploadedFilesInfo st) (errors st) |}) ∧
  (length (uploadedFilesInfo st) = length files →
   POST w files =
     {| http_status := 200; body := ImageFilesBody (uploadedFilesInfo st) |}).
Proof.
  intros Hne st.
  assert (length (uploadedFilesInfo st) + length (errors st) = length files)%nat
    as Hlen by (unfold st; rewrite upload_loop_lengths; simpl; lia).
  assert (0 < length files)%nat as Hpos by (destruct files; [done|simpl; lia]).
  destruct (respond_cases st) as (Hnone & Hsome & Hall).
  unfold POST. rewrite (POST_run_nonempty _ _ Hne). fold st. simpl.
  split_and!; [done| | |].
  - intros Herr. apply Hnone.
    + apply length_zero_iff_nil. lia.
    + intros Hnil. rewrite Hnil in Herr. simpl in Herr. lia.
  - done.
  - intros Hup. apply Hall, length_zero_iff_nil. lia.
Qed.

Lemma upload_response_by_outcome_witness :
  POST UploadSample.world [UploadSample.animation; UploadSample.poster] =
    {| http_status := 400;
       body := ErrorBody
         "Upload failed. Errors: Unsupported file type: cat.gif (image/gif), File too large: poster.png (11.00 MB)" |} ∧
  http_status
    (POST UploadSample.world [UploadSample.photo; UploadSample.animation]) = 207 ∧
  http_status
    (POST UploadSample.world_store_down [UploadSample.photo]) = 400 ∧
  http_status (POST UploadSample.world [UploadSample.photo; UploadSample.logo]) = 200.
Proof.
  split_and!.
  - destruct (upload_response_by_outcome UploadSample.world
                [UploadSample.animation; UploadSample.poster] ltac:(done))
      as (_ & Hnone & _ & _).
    rewrite Hnone by (vm_compute; reflexivity). vm_compute. reflexivity.
  - destruct (upload_response_by_outcome UploadSample.world
                [UploadSample.photo; UploadSample.animation] ltac:(done))
      as (_ & _ & Hsome & _).
    rewrite Hsome; [reflexivity| |]; vm_compute; discriminate.
  - destruct (upload_response_by_outcome UploadSample.world_store_down
                [UploadSample.photo] ltac:(done))
      as (_ & Hnone & _ & _).
    rewrite Hnone by (vm_compute; reflexivity). reflexivity.
  - destruct (upload_response_by_outcome UploadSample.world
                [UploadSample.photo; UploadSample.logo] ltac:(done))
      as (_ & _ & _ & Hall).
    rewrite Hall by (vm_compute; reflexivity). reflexivity.
Defined.

(** ** Properties of the client file list *)

Import Client.

Lemma blobUrl_known (prevFiles : list ImageFile.t) (f : ImageFile.t) :
  ImageFile.blobUrl f ∈ (list_to_set (map ImageFile.blobUrl prevFiles) : gset (option string))
  ↔ Exists (λ g, ImageFile.blobUrl g = ImageFile.blobUrl f) prevFiles.
Proof.
  rewrite elem_of_list_to_set, list_elem_of_In, in_map_iff, Exists_exists.
  split; intros (g & H1 & H2); exists g.
  - split; [by apply list_elem_of_In|done].
  - split; [done|by apply list_elem_of_In].
Qed.

Lemma handleFilesUploaded_spec uploadedFiles prevFiles :
  handleFilesUploaded uploadedFiles prevFiles
  = prevFiles ++ spec_appended prevFiles uploadedFiles.
Proof.
  unfold handleFilesUploaded. f_equal.
  induction uploadedFiles as [|f rest IH]; [done|].
  rewrite filter_cons. simpl. rewrite IH.
  destruct (decide (ImageFile.blobUrl f ∉ _)) as [Hnew|Hold].
  - rewrite bool_decide_eq_false_2; [done|]. by rewrite <- blobUrl_known.
  - rewrite bool_decide_eq_true_2; [done|].
    apply blobUrl_known. by apply dec_stable.
Qed.

Lemma spec_appended_elem collection new f :
  f ∈ spec_appended collection new ↔
  f ∈ new ∧ ∀ g, g ∈ collection → ImageFile.blobUrl g ≠ ImageFile.blobUrl f.
Proof.
  induction new as [|r rest IH]; simpl.
  - split; [by intros ?%elem_of_nil|by intros [?%elem_of_nil _]].
  - destruct (bool_decide_reflect
                (Exists (λ g, ImageFile.blobUrl g = ImageFile.blobUrl r) collection))
      as [Hold|Hnew]; rewrite ?elem_of_cons, IH.
    + split.
      * intros [Hin Hfresh]. split; [by right|done].
      * intros [[->|Hin] Hfresh]; [|done].
        apply Exists_exists in Hold as (g & Hg & Hurl). by destruct (Hfresh g).
    + split.
      * intros [->|[Hin Hfresh]]; [|split; [by right|done]].
        split; [by left|]. intros g Hg Hurl. apply Hnew, Exists_exists. eauto.
      * intros [[->|Hin] Hfresh]; [by left|by right].
Qed.

Lemma spec_appended_sublist collection new :
  spec_appended collection new `sublist_of` new.
Proof.
  induction new as [|r rest IH]; simpl; [done|].
  case_bool_decide; by constructor.
Qed.

(** C9: when the new records are merged into the collection, the result
    is the collection followed by the new records whose [blobUrl] does
    not occur in the collection, in their order; a new record whose
    [blobUrl] occurs in the collection is dropped.  The key is the
    [blobUrl]: a record with the [blobUrl] of an existing record is
    dropped whatever its [id], and a record with a [blobUrl] that does
    not occur is appended whatever its [id]. *)
Theorem merge_dedups_by_storage_reference uploadedFiles prevFiles :
  ∃ newFiles,
    handleFilesUploaded uploadedFiles prevFiles = prevFiles ++ newFiles ∧
    newFiles = spec_appended prevFiles uploadedFiles ∧
    newFiles `sublist_of` uploadedFiles ∧
    (∀ f, f ∈ uploadedFiles →
       (∃ g, g ∈ prevFiles ∧ ImageFile.blobUrl g = ImageFile.blobUrl f) →
       f ∉ newFiles) ∧
    (∀ f, f ∈ uploadedFiles →
       (∀ g, g ∈ prevFiles → ImageFile.blobUrl g ≠ ImageFile.blobUrl f) →
       f ∈ newFiles) ∧
    (∀ f g, g ∈ prevFiles → ImageFile.blobUrl f = ImageFile.blobUrl g →
       handleFilesUploaded [f] prevFiles = prevFiles) ∧
    (∀ f, (∀ g, g ∈ prevFiles → ImageFile.blobUrl g ≠ ImageFile.blobUrl f) →
       handleFilesUploaded [f] prevFiles = prevFiles ++ [f]).
Proof.
  exists (spec_appended prevFiles uploadedFiles). split_and!.
  - apply handleFilesUploaded_spec.
  - done.
  - apply spec_appended_sublist.
  - intros f _ (g & Hg & Hurl) [_ Hfresh]%spec_appended_elem. by destruct (Hfresh g).
  - intros f Hf Hfresh. by apply spec_appended_elem.
  - intros f g Hg Hurl. rewrite handleFilesUploaded_spec. simpl.
    rewrite bool_decide_eq_true_2; [by rewrite app_nil_r|].
    apply Exists_exists. eauto.
  - intros f Hfresh. rewrite handleFilesUploaded_spec. simpl.
    rewrite bool_decide_eq_false_2; [done|].
    intros (g & Hg & Hurl)%Exists_exists. by destruct (Hfresh g).
Qed.

Lemma merge_dedups_by_storage_reference_witness :
  handleFilesUploaded ClientSample.arrivals ClientSample.collection
  = ClientSample.collection ++
      [ClientSample.stored "uploads/b.png" "https://blob.example/uploads/b2.png";
       ClientSample.stored "uploads/d.png" "https://blob.example/uploads/d.png"].
Proof.
  destruct (merge_dedups_by_storage_reference ClientSample.arrivals ClientSample.collection)
    as (newFiles & Hmerge & Hnew & _).
  rewrite Hmerge, Hnew. vm_compute. reflexivity.
Defined.

(** ** Further properties of the process handler *)




(** X2: a request whose body is not [null] is answered 400 with the fixed
    message, before anything is fetched, encoded or stored, exactly when
    the body has no record, or no settings, or a record with no (or an
    empty) [blobUrl]. *)
Theorem precondition_violation_is_refused w request payload :
  Process.request_json request = inr (Process.BodyWith payload) →
  (Process.RequestBody.imageFile payload = None ∨
   Process.RequestBody.settings payload = None ∨
   ∃ imageFile,
     Process.RequestBody.imageFile payload = Some imageFile ∧
     (ImageFile.blobUrl imageFile = None ∨ ImageFile.blobUrl imageFile = Some ""))
  ↔ Process.POST_run w request
    = (Process.Responded
         {| Process.http_status := 400;
            Process.body :=
              Process.ErrorBody "Missing image file data, settings, or blob URL." |},
       []).
Proof.
  intros Hjson. split.
  - unfold Process.POST_run. rewrite Hjson.
    intros [->|[Hs|(imageFile & -> & Hurl)]]; [done| |].
    + rewrite Hs. by destruct (Process.RequestBody.imageFile payload).
    + destruct (Process.RequestBody.settings payload); [|done].
      by destruct Hurl as [->| ->].
  - intros Hrun.
    destruct payload as [[imageFile|] [settings|]]; simpl; auto.
    destruct (ImageFile.blobUrl imageFile) as [[|a url]|] eqn:Hurl; eauto 6.
    exfalso.
    assert (passes_precondition request imageFile settings (String a url)) as Hpre
      by done.
    rewrite (POST_run_passes w _ _ _ _ Hpre) in Hrun.
    destruct (Process.try_block _ _ _ _ _ _) as [[[step error]|response] st] eqn:Htry;
      [done|].
    destruct (try_block_returns _ _ _ _ _ _ _ Htry)
      as (? & ? & ? & ? & _ & _ & _ & _ & ->).
    done.
Qed.

Lemma precondition_violation_is_refused_witness :
  Process.POST_run Sample.world
    {| Process.request_json :=
         inr (Process.BodyWith
                (Process.RequestBody.mk (Some (Sample.record 1000)) None)) |}
  = (Process.Responded
       {| Process.http_status := 400;
          Process.body :=
            Process.ErrorBody "Missing image file data, settings, or blob URL." |},
     []).
Proof.
  apply (precondition_violation_is_refused Sample.world
           {| Process.request_json :=
                inr (Process.BodyWith
                       (Process.RequestBody.mk (Some (Sample.record 1000)) None)) |}
           (Process.RequestBody.mk (Some (Sample.record 1000)) None) eq_refl).
  right. by left.
Defined.

Lemma try_block_attempt w imageFile settings blobUrl start result st :
  Process.try_block w imageFile settings blobUrl start Process.initial_state
    = (result, st) →
  one_attempt w (Process.calls st) ∧
  (∀ response, result = inr response →
     ∃ url instance pathname processed options blob,
       Process.calls st
         = [Process.CallFetch url; Process.CallToBuffer instance;
            Process.CallPut pathname processed options] ∧
       Process.put w pathname processed options = inr blob).
Proof.
  unfold one_attempt. run_try. intros H.
  split_run.
  all: split; [|first [done | intros ? [= <-]; by eauto 10]].
  all: right; first
    [ by left; eexists
    | by right; left; eexists _, _, _
    | by right; right; eexists _, _, _, _, _, _ ].
Qed.

(** X3: one attempt, in one order: the handler makes at most one fetch, then
    at most one encoding, of the bytes it fetched, then at most one write,
    of the bytes the encoding gave; a response 200 comes only after all
    three, the write having succeeded. *)
Theorem calls_are_one_attempt w request :
  one_attempt w (Process.POST_run w request).2 ∧
  (∀ response,
     Process.POST w request = Process.Responded response →
     Process.http_status response = 200 →
     ∃ url instance pathname processed options blob,
       (Process.POST_run w request).2
         = [Process.CallFetch url; Process.CallToBuffer instance;
            Process.CallPut pathname processed options] ∧
       Process.put w pathname processed options = inr blob).
Proof.
  unfold Process.POST.
  destruct (Process.request_json request) as [e|[message|payload]] eqn:Hjson.
  { unfold Process.POST_run. rewrite Hjson. by split; [left|]. }
  { unfold Process.POST_run. rewrite Hjson. by split; [left|]. }
  destruct payload as [[imageFile|] [settings|]];
    try (unfold Process.POST_run; rewrite Hjson; simpl;
         split; [by left | by intros ? [= <-]]).
  destruct (ImageFile.blobUrl imageFile) as [[|a url]|] eqn:Hurl;
    try (unfold Process.POST_run; rewrite Hjson; simpl; rewrite Hurl; simpl;
         split; [by left | by intros ? [= <-]]).
  assert (passes_precondition request imageFile settings (String a url)) as Hpre
    by done.
  rewrite (POST_run_passes w _ _ _ _ Hpre).
  destruct (Process.try_block _ _ _ _ _ _) as [result st] eqn:Htry.
  destruct (try_block_attempt _ _ _ _ _ _ _ Htry) as [Hshape Hok].
  destruct result as [[step error]|response]; simpl.
  - split; [done|]. intros response Hr Hs. inversion Hr; subst. simpl in Hs. discriminate Hs.
  - split; [done|]. intros response' Hr _. inversion Hr; subst. by apply (Hok _ eq_refl).
Qed.

Lemma calls_are_one_attempt_witness :
  ∃ url instance pathname processed options blob,
    (Process.POST_run Sample.world
       (Sample.request (Sample.record 1000) (Sample.settings 80 original))).2
      = [Process.CallFetch url; Process.CallToBuffer instance;
         Process.CallPut pathname processed options] ∧
    Process.put Sample.world pathname processed options = inr blob.
Proof.
  destruct (calls_are_one_attempt Sample.world
              (Sample.request (Sample.record 1000) (Sample.settings 80 original)))
    as [_ Hok].
  eapply Hok; vm_compute; reflexivity.
Defined.

(** *** The PNG level is a number between 0 and 9 *)

Lemma SFltb_leb x y : SFltb x y = true → SFleb x y = true.
Proof. unfold SFltb, SFleb. by destruct (SFcompare x y) as [[]|]. Qed.


Lemma shr_1_nonneg mrs : 0 ≤ shr_m mrs → 0 ≤ shr_m (shr_1 mrs).
Proof.
  destruct mrs as [m r s]. simpl.
  destruct m as [|[p|p|]|[p|p|]]; simpl; lia.
Qed.

Lemma iter_shr_1_nonneg p :
  ∀ mrs, 0 ≤ shr_m mrs → 0 ≤ shr_m (SpecFloat.iter_pos shr_1 p mrs).
Proof.
  induction p as [p IH|p IH|]; intros mrs Hm; simpl.
  - apply IH, IH. by apply shr_1_nonneg.
  - by apply IH, IH.
  - by apply shr_1_nonneg.
Qed.

Lemma shr_nonneg mrs e n : 0 ≤ shr_m mrs → 0 ≤ shr_m (shr mrs e n).1.
Proof.
  intros Hm. unfold shr. destruct n; simpl; [done| |done].
  by apply iter_shr_1_nonneg.
Qed.

Lemma shr_record_of_loc_m m l : shr_m (shr_record_of_loc m l) = m.
Proof. by destruct l as [|[]]. Qed.

Lemma round_nearest_even_nonneg m l : 0 ≤ m → 0 ≤ round_nearest_even m l.
Proof.
  intros Hm. unfold round_nearest_even.
  destruct l as [|[]]; try lia. destruct (Z.even m); lia.
Qed.

Lemma binary_round_aux_is_number sx mx ex lx :
  0 ≤ mx → is_nan (binary_round_aux prec emax sx mx ex lx) = false.
Proof.
  intros Hm. unfold binary_round_aux, shr_fexp.
  destruct (shr (shr_record_of_loc mx lx) ex _) as [mrs' e'] eqn:H1.
  destruct (shr (shr_record_of_loc _ loc_Exact) e' _) as [mrs'' e''] eqn:H2.
  assert (0 ≤ shr_m mrs') as Hm'.
  { change mrs' with (mrs', e').1. rewrite <- H1. apply shr_nonneg.
    by rewrite shr_record_of_loc_m. }
  assert (0 ≤ shr_m mrs'') as Hm''.
  { change mrs'' with (mrs'', e'').1. rewrite <- H2. apply shr_nonneg.
    rewrite shr_record_of_loc_m. by apply round_nearest_even_nonneg. }
  destruct (shr_m mrs'') as [|p|p]; [done| |lia].
  by destruct (_ <=? _).
Qed.

Lemma binary_normalize_is_number m e s :
  is_nan (binary_normalize prec emax m e s) = false.
Proof.
  unfold binary_normalize, binary_round.
  destruct m as [|p|p]; [done| |];
    destruct (shl_align _ _ _) as [mz ez]; by apply binary_round_aux_is_number.
Qed.

Lemma sub_is_number y :
  is_nan y = false → is_nan (sub (of_Z 100) y) = false.
Proof.
  intros Hy. change (of_Z 100) with (S754_finite false 7036874417766400 (-46)).
  unfold sub, SFsub. destruct y as [s|s| |s m e]; try done.
  apply binary_normalize_is_number.
Qed.

Lemma div_is_number x :
  is_nan x = false → is_nan (div x (of_Z 10)) = false.
Proof.
  intros Hx. change (of_Z 10) with (S754_finite false 5629499534213120 (-49)).
  unfold div, SFdiv. destruct x as [s|s| |s m e]; try done.
  destruct (SFdiv_core_binary _ _ _ _ _ _) as [[mz ez] lz] eqn:Hcore.
  apply binary_round_aux_is_number.
  revert Hcore. unfold SFdiv_core_binary.
  set (m' := match _ with Z0 => _ | Zpos _ => _ | Zneg _ => _ end).
  assert (0 ≤ m') as Hm'.
  { unfold m'. destruct (_ - _ - _) eqn:Hs; try lia. apply Z.shiftl_nonneg. lia. }
  pose proof (Z.div_eucl_eq m' (Z.pos 5629499534213120) ltac:(lia)) as Heq.
  pose proof (Z.mod_pos_bound m' (Z.pos 5629499534213120) ltac:(lia)) as Hmod.
  unfold Z.modulo in Hmod.
  destruct (Z.div_eucl m' _) as [q r]. intros [= <- <- <-]. nia.
Qed.

Lemma Math_round_is_number x : is_nan x = false → is_nan (Math_round x) = false.
Proof.
  intros Hx. destruct x as [s|s| |s m e]; try done. simpl.
  destruct (0 <=? e); [done|]. destruct (_ =? 0); [done|].
  apply binary_normalize_is_number.
Qed.

(** X4: the level given to the PNG encoder lies between 0 and 9 for every
    quality that is a number, the infinities included; it is NaN only
    for the quality NaN. *)
Theorem png_level_is_clamped quality :
  if is_nan quality
  then is_nan (Process.pngCompressionLevel quality) = true
  else SFleb (of_Z 0) (Process.pngCompressionLevel quality) = true ∧
       SFleb (Process.pngCompressionLevel quality) (of_Z 9) = true.
Proof.
  destruct (is_nan quality) eqn:Hq.
  { by destruct quality. }
  pose proof (Math_round_is_number _ (div_is_number _ (sub_is_number _ Hq))) as Hr.
  unfold Process.pngCompressionLevel.
  revert Hr. generalize (Math_round (div (sub (of_Z 100) quality) (of_Z 10))).
  intros r Hnan.
  unfold Math_min. rewrite Hnan.
  replace (is_nan (of_Z 9) || false) with false by reflexivity.
  replace (is_pos_zero (of_Z 9) && is_neg_zero r) with false by reflexivity.
  unfold Math_max.
  destruct (ltb r (of_Z 9)) eqn:Hr9.
  - rewrite Hnan.
    replace (is_nan (of_Z 0) || false) with false by reflexivity.
    replace (is_neg_zero (of_Z 0) && is_pos_zero r) with false by reflexivity.
    destruct (ltb (of_Z 0) r) eqn:H0r.
    + split; by apply SFltb_leb.
    + by vm_compute.
  - by vm_compute.
Qed.

(** X5: when the effective target format is not [jpeg] or [png], the handler
    fetches the original and then stops: nothing is encoded and nothing
    is stored, and the response is the failed record with the metadata of
    the input. *)
Theorem unsupported_format_stops_after_fetch w request imageFile settings blobUrl :
  passes_precondition request imageFile settings blobUrl →
  Process.includes Process.MVP_PROCESS_FORMATS
    (Process.effectiveTargetFormat imageFile settings) = false →
  (Process.POST_run w request).2 = [Process.CallFetch blobUrl] ∧
  ∃ final,
    Process.POST w request =
      Process.Responded
        {| Process.http_status := 500; Process.body := Process.ImageFileBody final |} ∧
    ImageFile.status final = failed ∧
    ImageFile.metadata final = ImageFile.metadata imageFile ∧
    ImageFile.downloadUrl final = ImageFile.downloadUrl imageFile.
Proof.
  intros Hpre Hformat.
  destruct (Process.try_block w imageFile settings blobUrl (Process.Date_now w 0)
              Process.initial_state) as [result st] eqn:Htry.
  assert (Process.calls st = [Process.CallFetch blobUrl] ∧
          ∃ step error, result = inl (step, error) ∧
                        step ≠ Process.StepEncode ∧ step ≠ Process.StepStore)
    as (Hcalls & step & error & -> & Hencode & Hstore).
  { revert Htry. run_try. rewrite Hformat. simpl. intros Htry.
    split_run; (split; [done|]); by eexists _, _. }
  split.
  - by rewrite (POST_run_passes w _ _ _ _ Hpre), Htry.
  - eexists. split; [by apply (POST_throws _ _ _ _ _ _ _ _ Hpre Htry)|].
    by destruct step.
Qed.

Lemma unsupported_format_stops_after_fetch_witness :
  (Process.POST_run Sample.world
     (Sample.request (Sample.record 1000) (Sample.settings 80 avif))).2
  = [Process.CallFetch Sample.blobUrl].
Proof.
  apply (unsupported_format_stops_after_fetch Sample.world
           (Sample.request (Sample.record 1000) (Sample.settings 80 avif))
           (Sample.record 1000) (Sample.settings 80 avif) Sample.blobUrl).
  - split_and!; done.
  - reflexivity.
Defined.

(** X6: the tags given to the codec follow the title and the description of
    the request: a non-empty title becomes [ImageDescription], a
    non-empty description [UserComment], and when both are empty or
    absent [withMetadata] is not called at all. *)
Theorem tags_follow_title_and_description w request imageFile settings blobUrl instance :
  passes_precondition request imageFile settings blobUrl →
  Process.CallToBuffer instance ∈ (Process.POST_run w request).2 →
  let title := ImageMetadata.title (CompressionSettings.metadata settings) in
  let description := ImageMetadata.description (CompressionSettings.metadata settings) in
  let kept (v : option string) :=
    match v with
    | Some s => if JsString.truthy s then Some s else None
    | None => None
    end in
  Process.SharpInstance.withMetadata instance =
    match kept title, kept description with
    | None, None => None
    | t, d => Some (Process.WriteableMetadata.mk (Some (Process.IFD0.mk t d)))
    end.
Proof.
  intros Hpre Hin. cbv zeta.
  rewrite (POST_run_passes w _ _ _ _ Hpre) in Hin.
  destruct (Process.try_block w imageFile settings blobUrl (Process.Date_now w 0)
              Process.initial_state) as [result st] eqn:Htry.
  assert (Process.CallToBuffer instance ∈ Process.calls st) as Hin'
    by (by destruct result as [[step error]|response]).
  clear Hin. revert Htry Hin'. run_try.
  unfold Process.metadataToEmbed, Process.with_ImageDescription,
    Process.with_UserComment, Process.truthy.
  destruct (ImageMetadata.title _) as [[|a title]|];
    destruct (ImageMetadata.description _) as [[|b description]|]; simpl.
  all: intros Htry; split_run.
  all: intros Hc; set_unfold in Hc; destruct_or?; simplify_eq/=; done.
Qed.

(** The calls of a run of the block that returns. *)
Lemma try_block_returns_calls w imageFile settings blobUrl start response st :
  Process.try_block w imageFile settings blobUrl start Process.initial_state
    = (inr response, st) →
  ∃ format instance processed blob,
    Process.effectiveTargetFormat imageFile settings = Some format ∧
    (format = "jpeg" ∨ format = "png") ∧
    Process.calls st =
      [Process.CallFetch blobUrl; Process.CallToBuffer instance;
       Process.CallPut ("processed/" +:+ ImageFile.id imageFile +:+ "." +:+ format)
         processed (Process.PutOptions.mk "public" ("image/" +:+ format) 3600)] ∧
    Process.toBuffer w instance = inr processed ∧
    Process.put w ("processed/" +:+ ImageFile.id imageFile +:+ "." +:+ format)
      processed (Process.PutOptions.mk "public" ("image/" +:+ format) 3600)
      = inr blob ∧
    response =
      Process.json (Process.ImageFileBody
        (ImageFile.mk (ImageFile.id imageFile) (ImageFile.originalName imageFile)
           (ImageFile.originalSize imageFile) (ImageFile.originalFormat imageFile)
           (Some (byteLength processed))
           (Some (Process.compressionRatio (ImageFile.originalSize imageFile)
                    (byteLength processed)))
           completed
           (Process.updated_metadata (ImageFile.metadata imageFile)
              (CompressionSettings.metadata settings))
           (ImageFile.originalMetadata imageFile)
           (Some settings)
           (Some (PutBlobResult.url blob))
           (ImageFile.errorMessage imageFile)
           (Some (sub (Process.Date_now w 1) start))
           (ImageFile.blobUrl imageFile))).
Proof.
  run_try. intros H.
  destruct (Process.effectiveTargetFormat imageFile settings) as [format|] eqn:Hfmt;
    simpl in H; [|split_run].
  split_run.
  all: eexists format, _, _, _; split_and!; try done.
  all: match goal with H : negb (bool_decide _) = false |- _ =>
         apply negb_false_iff, bool_decide_eq_true in H;
         set_unfold in H; destruct_or?; auto; done end.
Qed.

(** X7: the record of a response 200: it is [completed], its [downloadUrl]
    is the URL that the store gave for the write, [compressedSize] is
    the length of the encoded bytes, [processingSettings] are the
    settings of the request and [processingTimeMs] the difference of the
    two readings of the clock; the encoded bytes were written under
    [processed/<id>.<format>] with the content type of the format. *)
Theorem completed_record w request imageFile settings blobUrl final :
  passes_precondition request imageFile settings blobUrl →
  Process.POST w request =
    Process.Responded
      {| Process.http_status := 200; Process.body := Process.ImageFileBody final |} →
  ∃ format instance processed blob,
    Process.effectiveTargetFormat imageFile settings = Some format ∧
    (format = "jpeg" ∨ format = "png") ∧
    (Process.POST_run w request).2 =
      [Process.CallFetch blobUrl; Process.CallToBuffer instance;
       Process.CallPut ("processed/" +:+ ImageFile.id imageFile +:+ "." +:+ format)
         processed (Process.PutOptions.mk "public" ("image/" +:+ format) 3600)] ∧
    Process.toBuffer w instance = inr processed ∧
    Process.put w ("processed/" +:+ ImageFile.id imageFile +:+ "." +:+ format)
      processed (Process.PutOptions.mk "public" ("image/" +:+ format) 3600)
      = inr blob ∧
    ImageFile.status final = completed ∧
    ImageFile.downloadUrl final = Some (PutBlobResult.url blob) ∧
    ImageFile.compressedSize final = Some (byteLength processed) ∧
    ImageFile.processingSettings final = Some settings ∧
    ImageFile.processingTimeMs final
      = Some (sub (Process.Date_now w 1) (Process.Date_now w 0)).
Proof.
  intros Hpre Hpost.
  destruct (POST_returns _ _ _ _ _ _ Hpre Hpost eq_refl) as [st Htry].
  rewrite (POST_run_passes w _ _ _ _ Hpre), Htry. simpl.
  destruct (try_block_returns_calls _ _ _ _ _ _ _ Htry)
    as (format & instance & processed & blob & Hfmt & Hsupported & Hcalls
        & Hencode & Hput & [= ->]).
  by exists format, instance, processed, blob.
Qed.

Lemma completed_record_witness :
  ∃ final,
    Process.POST Sample.world
      (Sample.request (Sample.record 1000) (Sample.settings 80 original))
    = Process.Responded
        {| Process.http_status := 200; Process.body := Process.ImageFileBody final |} ∧
    ImageFile.downloadUrl final
      = Some "https://blob.example/processed/uploads/V1StGXR8.png.png".
Proof.
  eexists. split; [vm_compute; reflexivity|].
  destruct (completed_record Sample.world
              (Sample.request (Sample.record 1000) (Sample.settings 80 original))
              (Sample.record 1000) (Sample.settings 80 original) Sample.blobUrl
              _ ltac:(split_and!; done) ltac:(vm_compute; reflexivity))
    as (format & instance & processed & blob & _ & _ & _ & _ & _ & _ & Hurl & _).
  reflexivity.
Defined.

Lemma tags_follow_title_and_description_witness :
  ∃ instance,
    Process.CallToBuffer instance ∈
      (Process.POST_run Sample.world
         (Sample.request (Sample.record 1000) (Sample.settings 80 original))).2 ∧
    Process.SharpInstance.withMetadata instance =
      Some (Process.WriteableMetadata.mk
              (Some (Process.IFD0.mk (Some "Sunset") (Some "Over the bay")))).
Proof.
  eexists. split.
  - vm_compute. apply list_elem_of_further, list_elem_of_here.
  - apply (tags_follow_title_and_description Sample.world
             (Sample.request (Sample.record 1000) (Sample.settings 80 original))
             (Sample.record 1000) (Sample.settings 80 original) Sample.blobUrl).
    + split_and!; done.
    + vm_compute. apply list_elem_of_further, list_elem_of_here.
Defined.

(** X22: when the store answers the fetch of the original with a response
    that is not [ok], the body of that response is never read, nothing
    is encoded or stored, and the handler answers 500 with the input
    record, [failed], whose message is ["Failed to fetch blob: "]
    followed by the status text of the response; a fetch that throws is
    reported in the same way, with the message of the thrown value. *)
Theorem missing_original_is_reported w request imageFile settings blobUrl :
  passes_precondition request imageFile settings blobUrl →
  (∃ response, Process.fetch w blobUrl = inr response ∧
               Process.FetchResponse.ok response = false) ∨
  (∃ error, Process.fetch w blobUrl = inl error) →
  (Process.POST_run w request).2 = [Process.CallFetch blobUrl] ∧
  ∃ final,
    Process.POST w request =
      Process.Responded
        {| Process.http_status := 500; Process.body := Process.ImageFileBody final |} ∧
    ImageFile.status final = failed ∧
    ImageFile.errorMessage final =
      Some match Process.fetch w blobUrl with
           | inr response =>
               "Failed to fetch blob: " +:+ Process.FetchResponse.statusText response
           | inl error => Process.message_of error
           end ∧
    ImageFile.metadata final = ImageFile.metadata imageFile ∧
    ImageFile.downloadUrl final = ImageFile.downloadUrl imageFile ∧
    ImageFile.compressedSize final = ImageFile.compressedSize imageFile.
Proof.
  intros Hpre Hfetch.
  destruct (Process.try_block w imageFile settings blobUrl (Process.Date_now w 0)
              Process.initial_state) as [result st] eqn:Htry.
  assert (Process.calls st = [Process.CallFetch blobUrl] ∧
          ∃ error, result = inl (Process.StepFetch, error) ∧
            Process.message_of error =
              match Process.fetch w blobUrl with
              | inr response =>
                  "Failed to fetch blob: " +:+ Process.FetchResponse.statusText response
              | inl error => Process.message_of error
              end)
    as (Hcalls & error & -> & Hmessage).
  { revert Htry. run_try.
    destruct Hfetch as [(response & -> & Hok)|[error ->]]; simpl.
    - rewrite Hok. simpl. intros [= <- <-]. split; [done|]. by eexists.
    - intros [= <- <-]. split; [done|]. by eexists. }
  split.
  - by rewrite (POST_run_passes w _ _ _ _ Hpre), Htry.
  - eexists. split; [by apply (POST_throws _ _ _ _ _ _ _ _ Hpre Htry)|].
    simpl. by rewrite Hmessage.
Qed.

Lemma missing_original_is_reported_witness :
  ∃ final,
    Process.POST Sample.world_fetch_fails
      (Sample.request (Sample.record 1000) (Sample.settings 80 original))
    = Process.Responded
        {| Process.http_status := 500; Process.body := Process.ImageFileBody final |} ∧
    ImageFile.errorMessage final = Some "Failed to fetch blob: Not Found".
Proof.
  destruct (missing_original_is_reported Sample.world_fetch_fails
              (Sample.request (Sample.record 1000) (Sample.settings 80 original))
              (Sample.record 1000) (Sample.settings 80 original) Sample.blobUrl)
    as (_ & final & Hpost & _ & Hmessage & _).
  - split_and!; done.
  - left. eexists. split; reflexivity.
  - exists final. split; [exact Hpost | exact Hmessage].
Defined.

(** ** Further properties of the upload handler *)

Lemma validated_iff file : validated file = true ↔ ¬ rejected file.
Proof.
  unfold validated, rejected.
  rewrite andb_true_iff, bool_decide_eq_true, Z.leb_le. split.
  - intros [Hin Hle] [Hout|Hlt]; [done|lia].
  - intros Hno. split.
    + destruct (decide (Upload.File.type file ∈ Upload.ALLOWED_MIME_TYPES)); [done|].
      destruct Hno. by left.
    + destruct (Z.le_gt_cases (Upload.File.size file) Upload.MAX_FILE_SIZE_BYTES);
        [done|]. destruct Hno. right. lia.
Qed.

(** One iteration, by cases. *)
Lemma upload_file_cases w st file :
  (validated file = false ∧
   ∃ message, Upload.upload_file w st file = Upload.push_error message st) ∨
  (validated file = true ∧
   let k := length (Upload.puts st) in
   let c := Upload.PutCall.mk (blob_path (Upload.nanoid w k) file) file (blob_options file) in
   match Upload.put w k (blob_path (Upload.nanoid w k) file) file (blob_options file) with
   | inr blob =>
       Upload.upload_file w st file =
         Upload.push_uploaded (uploaded_record file blob) (Upload.record_put c st)
   | inl _ =>
       Upload.upload_file w st file =
         Upload.push_error (Upload.failed_message file) (Upload.record_put c st)
   end).
Proof.
  unfold Upload.upload_file, validated.
  destruct (bool_decide_reflect (Upload.File.type file ∈ Upload.ALLOWED_MIME_TYPES))
    as [Hin|Hout]; simpl; [|left; eauto].
  destruct (Z.ltb_spec Upload.MAX_FILE_SIZE_BYTES (Upload.File.size file))
    as [Hlarge|Hfits].
  - left. split; [by apply Z.leb_gt|eauto].
  - right. split; [by apply Z.leb_le|].
    unfold blob_path, blob_options. by destruct (Upload.put w _ _ _ _).
Qed.

(** The loop, from any state: the writes it adds are one per validated
    file, in order, the k-th write under the k-th identifier; each
    record it adds is that of a validated file whose write succeeded. *)
Lemma upload_loop_account w files :
  ∀ st,
    let st' := Upload.upload_loop w files st in
    (∃ added,
       Upload.puts st' = Upload.puts st ++ added ∧
       map Upload.PutCall.body added = List.filter validated files ∧
       ∀ i c, added !! i = Some c →
         Upload.PutCall.pathname c
           = blob_path (Upload.nanoid w (length (Upload.puts st) + i)) (Upload.PutCall.body c) ∧
         Upload.PutCall.options c = blob_options (Upload.PutCall.body c)) ∧
    (∃ records,
       Upload.uploadedFilesInfo st' = Upload.uploadedFilesInfo st ++ records ∧
       ∀ info, info ∈ records →
         ∃ file k blob,
           file ∈ files ∧ validated file = true ∧
           Upload.put w k (blob_path (Upload.nanoid w k) file) file (blob_options file)
             = inr blob ∧
           info = uploaded_record file blob).
Proof.
  unfold Upload.upload_loop.
  induction files as [|file files IH]; intros st; simpl.
  { split; [exists []|exists []]; rewrite app_nil_r; split_and!; try done.
    by intros ? ?%elem_of_nil. }
  destruct (IH (Upload.upload_file w st file))
    as [(added & Hputs & Hbodies & Hpaths) (records & Hrecords & Hinfo)].
  destruct (upload_file_cases w st file) as [[Hval (message & Hfile)]|[Hval Hfile]].
  - rewrite Hval. rewrite Hfile in *. simpl in *. split.
    + exists added. split_and!; done.
    + exists records. split; [done|]. intros info Hin.
      destruct (Hinfo info Hin) as (f & k & blob & Hf & ?). exists f, k, blob.
      split; [by right|done].
  - rewrite Hval. simpl in Hfile.
    set (k := length (Upload.puts st)) in *.
    set (c := Upload.PutCall.mk _ file _) in *.
    assert (Upload.puts (Upload.upload_file w st file) = Upload.puts st ++ [c]) as Hp
      by (destruct (Upload.put w k _ _ _); by rewrite Hfile).
    split.
    + exists (c :: added). rewrite Hputs, Hp, <- app_assoc. split_and!; [done| |].
      * simpl. by rewrite Hbodies.
      * intros [|i] c' Hc'; simpl in Hc'.
        -- injection Hc' as <-. simpl. by rewrite Nat.add_0_r.
        -- destruct (Hpaths i c' Hc') as [Hpath Hopts]. split; [|done].
           rewrite Hpath, Hp, length_app. simpl. do 2 f_equal. lia.
    + destruct (Upload.put w k _ _ _) as [error|blob] eqn:Hput; rewrite Hfile in *.
      * exists records. split; [done|]. intros info Hin.
        destruct (Hinfo info Hin) as (f & k' & blob & Hf & ?). exists f, k', blob.
        split; [by right|done].
      * exists (uploaded_record file blob :: records). simpl in *.
        rewrite Hrecords, <- app_assoc. split; [done|].
        intros info [->|Hin]%elem_of_cons.
        -- exists file, k, blob. split_and!; [by left|done|done|done].
        -- destruct (Hinfo info Hin) as (f & k' & blob' & Hf & ?). exists f, k', blob'.
           split; [by right|done].
Qed.

(** X8: the handler attempts exactly one write for each file that passes the
    validation, in the order of the batch and none for the others; the
    k-th write goes to [uploads/<k-th identifier>.<extension>], public,
    with the declared type of the file as content type and a cache
    lifetime of one hour. *)
Theorem one_write_per_validated_file w files :
  map Upload.PutCall.body (Upload.POST_run w files).2 = List.filter validated files ∧
  ∀ k c, (Upload.POST_run w files).2 !! k = Some c →
    Upload.PutCall.pathname c
      = "uploads/" +:+ Upload.nanoid w k +:+ "."
          +:+ JsString.show (Upload.fileExtension (Upload.PutCall.body c)) ∧
    Upload.PutCall.options c
      = Upload.PutOptions.mk "public" (Upload.File.type (Upload.PutCall.body c))
          "public, max-age=3600".
Proof.
  destruct files as [|file files]; [split; [done|by intros ??]|].
  rewrite POST_run_nonempty by done.
  destruct (upload_loop_account w (file :: files) Upload.initial_state)
    as [(added & Hputs & Hbodies & Hpaths) _].
  cbv zeta in Hputs, Hpaths.
  change (Upload.puts Upload.initial_state) with (@nil Upload.PutCall.t) in *.
  cbn [snd app]. rewrite Hputs. cbn [app]. split; [done|].
  intros k c Hc. by destruct (Hpaths k c Hc).
Qed.

Lemma one_write_per_validated_file_witness :
  map Upload.PutCall.body
    (Upload.POST_run UploadSample.world
       [UploadSample.photo; UploadSample.animation; UploadSample.logo]).2
  = [UploadSample.photo; UploadSample.logo] ∧
  ∀ c,
    (Upload.POST_run UploadSample.world
       [UploadSample.photo; UploadSample.animation; UploadSample.logo]).2 !! 1%nat
    = Some c →
    Upload.PutCall.pathname c
      = "uploads/" +:+ Upload.nanoid UploadSample.world 1 +:+ "."
          +:+ JsString.show (Upload.fileExtension (Upload.PutCall.body c)).
Proof.
  destruct (one_write_per_validated_file UploadSample.world
              [UploadSample.photo; UploadSample.animation; UploadSample.logo])
    as [Hbodies Hcalls].
  split; [exact Hbodies|]. intros c Hc. by destruct (Hcalls 1%nat c Hc).
Defined.

(** X9: every record that the handler returns, in a response 200 or 207, is
    the record of a file of the batch that passed the validation and
    whose write succeeded: its [id] and [blobUrl] are the path and the
    URL that the store gave, its name, size and type are the file's, its
    status is [uploaded], its metadata is empty and it has no result of
    processing. *)
Theorem returned_records_are_uploads w files records info :
  (Upload.body (Upload.POST w files) = Upload.ImageFilesBody records ∨
   ∃ uploadErrors,
     Upload.body (Upload.POST w files) = Upload.MultiStatusBody records uploadErrors) →
  info ∈ records →
  ∃ file k blob,
    file ∈ files ∧ ¬ rejected file ∧
    Upload.put w k
      ("uploads/" +:+ Upload.nanoid w k +:+ "."
         +:+ JsString.show (Upload.fileExtension file))
      file
      (Upload.PutOptions.mk "public" (Upload.File.type file) "public, max-age=3600")
      = inr blob ∧
    info =
      ImageFile.mk (PutBlobResult.pathname blob) (Upload.File.name file)
        (of_Z (Upload.File.size file)) (Upload.File.type file) None None uploaded
        (ImageMetadata.mk None None None None None None)
        None None None None None (Some (PutBlobResult.url blob)).
Proof.
  intros Hbody Hin.
  assert (records = Upload.uploadedFilesInfo
                      (Upload.upload_loop w files Upload.initial_state)) as ->.
  { unfold Upload.POST in Hbody. destruct files as [|file files].
    - simpl in Hbody. by destruct Hbody as [|[? ?]].
    - rewrite POST_run_nonempty in Hbody by done. cbn [fst] in Hbody.
      unfold Upload.respond in Hbody.
      destruct Hbody as [Hbody|[errs Hbody]]; repeat case_match; by simplify_eq/=. }
  destruct (upload_loop_account w files Upload.initial_state)
    as [_ (records & Hrecords & Hinfo)].
  cbv zeta in Hrecords, Hinfo.
  change (Upload.uploadedFilesInfo Upload.initial_state) with (@nil ImageFile.t) in *.
  rewrite Hrecords in Hin. cbn [app] in Hin.
  destruct (Hinfo info Hin) as (file & k & blob & Hfile & Hval & Hput & ->).
  exists file, k, blob. split_and!; [done|by apply validated_iff|done|done].
Qed.

Lemma returned_records_are_uploads_witness :
  ∃ blob,
    Upload.put UploadSample.world 0 "uploads/id0.jpeg" UploadSample.photo
      (Upload.PutOptions.mk "public" "image/jpeg" "public, max-age=3600") = inr blob ∧
    Upload.body (Upload.POST UploadSample.world [UploadSample.photo; UploadSample.animation])
    = Upload.MultiStatusBody
        [ImageFile.mk (PutBlobResult.pathname blob) "sunset.jpeg" (of_Z 2097152)
           "image/jpeg" None None uploaded (ImageMetadata.mk None None None None None None)
           None None None None None (Some (PutBlobResult.url blob))]
        ["Unsupported file type: cat.gif (image/gif)"].
Proof.
  pose proof (returned_records_are_uploads UploadSample.world
                [UploadSample.photo; UploadSample.animation]
                [uploaded_record UploadSample.photo
                   (PutBlobResult.mk "https://blob.example/uploads/id0.jpeg"
                      "uploads/id0.jpeg")]
                (uploaded_record UploadSample.photo
                   (PutBlobResult.mk "https://blob.example/uploads/id0.jpeg"
                      "uploads/id0.jpeg"))) as H.
  destruct H as (file & k & blob & _ & _ & _ & _).
  - right. eexists. vm_compute. reflexivity.
  - apply list_elem_of_here.
  - eexists. split; vm_compute; reflexivity.
Defined.

Lemma split_parts_have_no_separator sep s :
  Forall (λ part, JsString.includes sep part = false) (JsString.split sep s).
Proof.
  induction s as [|c s IH]; simpl; [by repeat constructor|].
  destruct (Ascii.eqb c sep) eqn:Hc; [by constructor|].
  destruct (JsString.split sep s) as [|h t]; [by repeat constructor; simpl; rewrite Hc|].
  inversion IH; subst. constructor; [|done]. simpl. by rewrite Hc.
Qed.

Lemma split_has_two_parts sep s rest :
  (2 ≤ length (JsString.split sep (s +:+ String sep rest)))%nat.
Proof.
  induction s as [|c s IH]; simpl.
  - rewrite Ascii.eqb_refl. simpl. destruct rest; simpl; repeat case_match; simpl; lia.
  - destruct (Ascii.eqb c sep); simpl; [lia|].
    destruct (JsString.split sep (s +:+ String sep rest)); simpl in *; lia.
Qed.

Lemma split_is_not_empty sep s : JsString.split sep s ≠ [].
Proof. destruct s as [|c s]; simpl; repeat case_match; done. Qed.

Lemma last_split_after_separator sep s rest :
  last (JsString.split sep (s +:+ String sep rest)) = last (JsString.split sep rest).
Proof.
  induction s as [|c s IH]; simpl.
  - rewrite Ascii.eqb_refl.
    pose proof (split_is_not_empty sep rest) as Hne.
    destruct (JsString.split sep rest); [by destruct Hne|reflexivity].
  - pose proof (split_has_two_parts sep s rest) as Hlen.
    destruct (Ascii.eqb c sep).
    + rewrite <- IH.
      destruct (JsString.split sep (s +:+ String sep rest)); simpl in *; [lia|done].
    + rewrite <- IH.
      destruct (JsString.split sep (s +:+ String sep rest)) as [|h [|h' t]];
        simpl in *; [lia|lia|done].
Qed.

(** X10: the extension under which a file is stored: [bin] for a name without
    a dot, otherwise what follows the last dot of the name (which may be
    empty); it never contains a dot. *)
Theorem fileExtension_is_the_last_part file :
  (JsString.includes "." (Upload.File.name file) = false →
   Upload.fileExtension file = Some "bin") ∧
  (∀ base ext,
     Upload.File.name file = base +:+ "." +:+ ext →
     JsString.includes "." ext = false →
     Upload.fileExtension file = Some ext) ∧
  ∃ ext, Upload.fileExtension file = Some ext ∧ JsString.includes "." ext = false.
Proof.
  unfold Upload.fileExtension. split_and!.
  - by intros ->.
  - intros base ext Hname Hext. rewrite Hname.
    change ("." +:+ ext) with (String "." ext).
    assert (JsString.includes "." (base +:+ String "." ext) = true) as ->.
    { clear. induction base as [|c base IH]; simpl; [done|]. by rewrite IH, orb_true_r. }
    rewrite last_split_after_separator.
    by rewrite (split_without_separator _ _ Hext).
  - destruct (JsString.includes "." (Upload.File.name file)); [|by exists "bin"].
    pose proof (split_parts_have_no_separator "." (Upload.File.name file)) as Hparts.
    pose proof (split_is_not_empty "." (Upload.File.name file)) as Hne.
    destruct (last (JsString.split "." (Upload.File.name file))) as [ext|] eqn:Hlast.
    + exists ext. split; [done|].
      rewrite Forall_forall in Hparts. apply Hparts.
      rewrite last_lookup in Hlast. by apply list_elem_of_lookup_2 in Hlast.
    + by apply last_None in Hlast.
Qed.

Lemma fileExtension_is_the_last_part_witness :
  Upload.fileExtension (Upload.File.mk "archive.tar.gz" "image/png" 10) = Some "gz" ∧
  Upload.fileExtension (Upload.File.mk "README" "image/png" 10) = Some "bin".
Proof.
  destruct (fileExtension_is_the_last_part (Upload.File.mk "archive.tar.gz" "image/png" 10))
    as (_ & Hext & _).
  destruct (fileExtension_is_the_last_part (Upload.File.mk "README" "image/png" 10))
    as (Hbin & _ & _).
  split.
  - apply (Hext "archive.tar" "gz"); reflexivity.
  - apply Hbin. reflexivity.
Defined.

(** ** Further properties of the client file list and of the page *)

Lemma spec_appended_known collection new :
  (∀ f, f ∈ new →
        ∃ g, g ∈ collection ∧ ImageFile.blobUrl g = ImageFile.blobUrl f) →
  spec_appended collection new = [].
Proof.
  intros Hknown. apply elem_of_nil_inv. intros f [Hf Hfresh]%spec_appended_elem.
  destruct (Hknown f Hf) as (g & Hg & Hurl). by destruct (Hfresh g).
Qed.

(** X11: merging records whose storage references are all in the collection
    leaves the collection as it is; so delivering the same batch a second
    time adds nothing. *)
Theorem merge_is_idempotent uploadedFiles prevFiles :
  ((∀ f, f ∈ uploadedFiles →
         ∃ g, g ∈ prevFiles ∧ ImageFile.blobUrl g = ImageFile.blobUrl f) →
   Client.handleFilesUploaded uploadedFiles prevFiles = prevFiles) ∧
  Client.handleFilesUploaded uploadedFiles
    (Client.handleFilesUploaded uploadedFiles prevFiles)
  = Client.handleFilesUploaded uploadedFiles prevFiles.
Proof.
  split.
  - intros Hknown. rewrite handleFilesUploaded_spec, spec_appended_known by done.
    by rewrite app_nil_r.
  - rewrite (handleFilesUploaded_spec uploadedFiles (Client.handleFilesUploaded _ _)).
    rewrite spec_appended_known; [by rewrite app_nil_r|].
    intros f Hf. rewrite handleFilesUploaded_spec.
    destruct (decide (Exists (λ g, ImageFile.blobUrl g = ImageFile.blobUrl f) prevFiles))
      as [(g & Hg & Hurl)%Exists_exists|Hnew].
    + exists g. split; [|done]. apply elem_of_app. by left.
    + exists f. split; [|done]. apply elem_of_app. right.
      apply spec_appended_elem. split; [done|].
      intros g Hg Hurl. apply Hnew, Exists_exists. eauto.
Qed.

Lemma merge_is_idempotent_witness :
  Client.handleFilesUploaded ClientSample.arrivals
    (Client.handleFilesUploaded ClientSample.arrivals ClientSample.collection)
  = Client.handleFilesUploaded ClientSample.arrivals ClientSample.collection ∧
  Client.handleFilesUploaded ClientSample.collection ClientSample.collection
  = ClientSample.collection.
Proof.
  destruct (merge_is_idempotent ClientSample.arrivals ClientSample.collection)
    as [_ Hidem].
  destruct (merge_is_idempotent ClientSample.collection ClientSample.collection)
    as [Hknown _].
  split; [exact Hidem|]. apply Hknown. intros f Hf. by exists f.
Defined.

Lemma map_is_fmap {A B} (f : A → B) (l : list A) : map f l = f <$> l.
Proof. induction l; simpl; by f_equal. Qed.

(** X12: if no two records of the collection share a storage reference, and
    no two records of the batch do, then no two records of the merged
    collection do. *)
Theorem merge_keeps_references_distinct uploadedFiles prevFiles :
  NoDup (map ImageFile.blobUrl prevFiles) →
  NoDup (map ImageFile.blobUrl uploadedFiles) →
  NoDup (map ImageFile.blobUrl (Client.handleFilesUploaded uploadedFiles prevFiles)).
Proof.
  intros Hprev Hnew. rewrite handleFilesUploaded_spec, map_app, !map_is_fmap.
  rewrite map_is_fmap in Hprev, Hnew.
  apply NoDup_app. split_and!; [done| |].
  - rewrite ?map_is_fmap.
    intros url (g & -> & Hg)%list_elem_of_fmap (f & Hurl & Hf)%list_elem_of_fmap.
    apply spec_appended_elem in Hf as [_ Hfresh]. by destruct (Hfresh g).
  - rewrite ?map_is_fmap.
    apply (sublist_NoDup _ (ImageFile.blobUrl <$> uploadedFiles)); [done|].
    apply fmap_sublist, spec_appended_sublist.
Qed.

Lemma merge_keeps_references_distinct_witness :
  NoDup (map ImageFile.blobUrl
           (Client.handleFilesUploaded ClientSample.arrivals ClientSample.collection)).
Proof.
  apply merge_keeps_references_distinct.
  - apply (bool_decide_unpack _). by vm_compute.
  - apply (bool_decide_unpack _). by vm_compute.
Defined.

Lemma find_by_id_None (files : list ImageFile.t) id :
  List.find (λ f, bool_decide (ImageFile.id f = id)) files = None ↔
  ∀ f, f ∈ files → ImageFile.id f ≠ id.
Proof.
  induction files as [|g files IH]; simpl.
  - split; [by intros _ f ?%elem_of_nil|done].
  - case_bool_decide as Hg.
    + split; [done|]. intros Hall. destruct (Hall g); [by left|done].
    + rewrite IH. split.
      * intros Hall f [->|Hf]%elem_of_cons; auto.
      * intros Hall f Hf. apply Hall. by right.
Qed.

(** X13: a request for an id that no record of the list has is dropped: no
    request is sent and no state update is asked for; for any other id
    the handler sends the first record with that id, as the list has it. *)
Theorem unknown_id_does_nothing w files id settings :
  ((∀ f, f ∈ files → ImageFile.id f ≠ id) ↔
   Page.handleProcessImage w files id settings = (None, [])) ∧
  (∀ imageFile s,
     (Page.handleProcessImage w files id settings).1 = Some (imageFile, s) →
     imageFile ∈ files ∧ ImageFile.id imageFile = id ∧ s = settings).
Proof.
  unfold Page.handleProcessImage. split.
  - rewrite <- find_by_id_None.
    destruct (List.find _ files); split; done.
  - intros imageFile s.
    destruct (List.find _ files) as [g|] eqn:Hfind; [|done].
    intros [= -> ->]. apply find_some in Hfind as [Hin Hid].
    split; [by apply list_elem_of_In|]. split; [|done].
    by apply bool_decide_eq_true in Hid.
Qed.

Lemma update_after_mark id s e updates (files : list ImageFile.t) :
  Page.updateFileState id updates
    (Page.updateFileState id (Updates.status_and_error s e) files)
  = map (λ f, if bool_decide (ImageFile.id f = id)
              then Page.spread (with_status_and_error f s e) updates else f)
        files.
Proof.
  unfold Page.updateFileState. rewrite map_map. apply map_ext. intros f.
  destruct (decide (ImageFile.id f = id)) as [Hid|Hid].
  - rewrite (bool_decide_eq_true_2 (ImageFile.id f = id)) by done.
    destruct f; simpl in *. by rewrite bool_decide_eq_true_2.
  - rewrite (bool_decide_eq_false_2 (ImageFile.id f = id)) by done.
    by rewrite bool_decide_eq_false_2.
Qed.

Lemma another_is_processing_frame id (g : ImageFile.t → ImageFile.t) files :
  (∀ f, ImageFile.id f = id → ImageFile.id (g f) = id) →
  another_is_processing id
    (map (λ f, if bool_decide (ImageFile.id f = id) then g f else f) files)
  = another_is_processing id files.
Proof.
  intros Hg. unfold another_is_processing.
  induction files as [|f files IH]; simpl; [done|]. rewrite IH. f_equal.
  destruct (decide (ImageFile.id f = id)) as [Hid|Hid].
  - rewrite (bool_decide_eq_true_2 (ImageFile.id f = id)) by done.
    simpl. by rewrite (bool_decide_eq_true_2 (ImageFile.id (g f) = id)) by auto.
  - rewrite (bool_decide_eq_false_2 (ImageFile.id f = id)) by done.
    simpl. by rewrite (bool_decide_eq_false_2 (ImageFile.id f = id)) by done.
Qed.

(** X14: when the request fails (the fetch or the reading of the body throws,
    or the response is not [ok]), the page marks every record with the
    id [failed] with the message and changes nothing else: the records
    keep their metadata and every other property even when the response
    carried a record, the other records and the page's error message are
    untouched, and the flag ends as "another record is processing".  The
    message of a response that is not [ok] is its [errorMessage], or
    ["Processing failed"] when that is absent or empty. *)
Theorem failed_request_on_page w st id settings imageFile error :
  List.find (λ f, bool_decide (ImageFile.id f = id)) (Page.files st) = Some imageFile →
  Page.try_process (Page.fetch_process w imageFile settings) = inl error →
  Page.run (Page.handleProcessImage w (Page.files st) id settings).2 st =
    {| Page.files :=
         map (λ f, if bool_decide (ImageFile.id f = id)
                   then with_status_and_error f failed (Some (Page.message_of error))
                   else f)
             (Page.files st);
       Page.errorMessage := Page.errorMessage st;
       Page.isProcessingAny := another_is_processing id (Page.files st) |} ∧
  (∀ response result,
     Page.fetch_process w imageFile settings = inr response →
     Page.HttpResponse.json response = inr result →
     Page.HttpResponse.ok response = false ∧
     Page.message_of error =
       match Updates.errorMessage result with
       | Some (Some message) => if JsString.truthy message then message else "Processing failed"
       | _ => "Processing failed"
       end).
Proof.
  intros Hfind Htry. split.
  - unfold Page.handleProcessImage. rewrite Hfind, Htry.
    unfold Page.run. cbn [fold_left snd].
    unfold Page.finally_clause, Page.setFiles, Page.setIsProcessingAny.
    cbn [Page.files Page.errorMessage Page.isProcessingAny].
    rewrite update_after_mark.
    assert (map (λ f, if bool_decide (ImageFile.id f = id)
                      then Page.spread (with_status_and_error f processing None)
                             (Updates.status_and_error failed
                                (Some (Page.message_of error)))
                      else f) (Page.files st)
            = map (λ f, if bool_decide (ImageFile.id f = id)
                        then with_status_and_error f failed
                               (Some (Page.message_of error))
                        else f) (Page.files st)) as ->.
    { apply map_ext. intros f. case_bool_decide; [by destruct f|done]. }
    f_equal.
    apply (another_is_processing_frame id
             (λ f, with_status_and_error f failed (Some (Page.message_of error)))).
    by intros [].
  - intros response result Hreply Hjson. revert Htry.
    unfold Page.try_process, Page.errorMessage_or_default. rewrite Hreply, Hjson.
    destruct (Page.HttpResponse.ok response); simpl; [done|]. by intros [= <-].
Qed.

Lemma failed_request_on_page_witness :
  Page.files
    (Page.run (Page.handleProcessImage PageSample.world_500
                 (Page.files PageSample.state) "uploads/a.png" PageSample.settings).2
       PageSample.state)
  = [with_status_and_error PageSample.waiting failed (Some "Input buffer is empty");
     PageSample.busy].
Proof.
  destruct (failed_request_on_page PageSample.world_500 PageSample.state
              "uploads/a.png" PageSample.settings PageSample.waiting
              (ErrorObject "Input buffer is empty") eq_refl eq_refl) as [Hrun _].
  rewrite Hrun. reflexivity.
Defined.

(** X15: when the response is [ok], every record with the id takes the
    properties that the response has and keeps its own for the others,
    except that its earlier error message is gone unless the response
    has one, and that its status stays [processing] when the response
    has none; the other records and the page's error message are
    untouched, and the flag ends as "another record is processing". *)
Theorem answered_request_on_page w st id settings imageFile result :
  List.find (λ f, bool_decide (ImageFile.id f = id)) (Page.files st) = Some imageFile →
  Page.try_process (Page.fetch_process w imageFile settings) = inr result →
  let final :=
    Page.run (Page.handleProcessImage w (Page.files st) id settings).2 st in
  Page.files final =
    map (λ f, if bool_decide (ImageFile.id f = id)
              then Page.spread (with_status_and_error f processing None) result
              else f)
        (Page.files st) ∧
  Page.errorMessage final = Page.errorMessage st ∧
  Page.isProcessingAny final = another_is_processing id (Page.files final) ∧
  (∀ i f, Page.files st !! i = Some f → ImageFile.id f ≠ id →
          Page.files final !! i = Some f) ∧
  (∀ i f, Page.files st !! i = Some f → ImageFile.id f = id →
     ∃ f', Page.files final !! i = Some f' ∧
       ImageFile.status f' = default processing (Updates.status result) ∧
       ImageFile.errorMessage f' = default None (Updates.errorMessage result) ∧
       ImageFile.metadata f' = default (ImageFile.metadata f) (Updates.metadata result) ∧
       ImageFile.downloadUrl f'
         = default (ImageFile.downloadUrl f) (Updates.downloadUrl result)).
Proof.
  intros Hfind Htry final.
  assert (Page.files final =
          map (λ f, if bool_decide (ImageFile.id f = id)
                    then Page.spread (with_status_and_error f processing None) result
                    else f) (Page.files st) ∧
          Page.errorMessage final = Page.errorMessage st ∧
          Page.isProcessingAny final = another_is_processing id (Page.files final))
    as (Hfiles & Herr & Hflag).
  { unfold final, Page.handleProcessImage. rewrite Hfind, Htry.
    unfold Page.run. cbn [fold_left snd].
    unfold Page.finally_clause, Page.setFiles, Page.setIsProcessingAny.
    cbn [Page.files Page.errorMessage Page.isProcessingAny].
    by rewrite update_after_mark. }
  split_and!; try done.
  - intros i f Hi Hid. rewrite Hfiles, map_is_fmap, list_lookup_fmap, Hi. simpl.
    by rewrite bool_decide_eq_false_2.
  - intros i f Hi Hid. eexists. split.
    + rewrite Hfiles, map_is_fmap, list_lookup_fmap, Hi. simpl.
      by rewrite bool_decide_eq_true_2.
    + by destruct f.
Qed.

Lemma answered_request_on_page_witness :
  Page.run (Page.handleProcessImage PageSample.world_200
              (Page.files PageSample.state) "uploads/a.png" PageSample.settings).2
    PageSample.state
  = {| Page.files :=
         [ImageFile.mk "uploads/a.png" "a.png" (of_Z 1000) "image/png"
            (Some (of_Z 400)) (Some (of_Z 60)) completed
            (ImageMetadata.mk (Some "New title") (Some "") None None None None)
            None (Some PageSample.settings)
            (Some "https://blob.example/processed/uploads/a.png.png")
            None (Some (of_Z 12)) (Some "https://blob.example/uploads/a.png");
          PageSample.busy];
       Page.errorMessage := None;
       Page.isProcessingAny := true |}.
Proof.
  destruct (answered_request_on_page PageSample.world_200 PageSample.state
              "uploads/a.png" PageSample.settings PageSample.waiting _ eq_refl eq_refl)
    as (Hfiles & Herr & Hflag & _).
  destruct (Page.run _ _) as [files err flag]. simpl in *. subst. reflexivity.
Defined.

Lemma unknown_id_does_nothing_witness :
  Page.handleProcessImage PageSample.world_200 (Page.files PageSample.state)
    "uploads/zzz.png" PageSample.settings = (None, []).
Proof.
  apply (unknown_id_does_nothing PageSample.world_200 (Page.files PageSample.state)
           "uploads/zzz.png" PageSample.settings).
  intros f Hf. set_unfold in Hf. by destruct Hf as [->|[->|[]]].
Defined.

(** ** The image card *)

(** X16: the settings that the card sends always name a format that the
    process handler supports: [original] for a JPEG or PNG original,
    which resolves to its own format, and [jpeg] for any other original;
    so a request built by the card is never refused at the format check.
    The id, the quality, the title and the description are passed on as
    they are. *)
Theorem card_asks_for_a_supported_format file title description quality :
  let request := Card.handleProcessClick file title description quality in
  request.1 = ImageFile.id file ∧
  CompressionSettings.quality request.2 = quality ∧
  CompressionSettings.metadata request.2
    = ImageMetadata.mk (Some title) (Some description) None None None None ∧
  Process.effectiveTargetFormat file request.2
    = Some (if bool_decide (ImageFile.originalFormat file = "image/png")
            then "png" else "jpeg") ∧
  ∀ w blobUrl start error st,
    Process.try_block w file request.2 blobUrl start Process.initial_state
      ≠ (inl (Process.StepFormat, error), st).
Proof.
  cbv zeta.
  assert (Process.effectiveTargetFormat file
            (Card.handleProcessClick file title description quality).2
          = Some (if bool_decide (ImageFile.originalFormat file = "image/png")
                  then "png" else "jpeg")) as Heff.
  { unfold Card.handleProcessClick, Process.effectiveTargetFormat. simpl.
    destruct (bool_decide_reflect (ImageFile.originalFormat file = "image/jpeg"))
      as [->|Hjpeg]; [done|].
    destruct (bool_decide_reflect (ImageFile.originalFormat file = "image/png"))
      as [->|Hpng]; done. }
  split_and!; try done.
  intros w blobUrl start error st Htry.
  apply try_block_step in Htry. destruct Htry as [Hunsupported _].
  rewrite Heff in Hunsupported. by case_bool_decide.
Qed.

Lemma card_asks_for_a_supported_format_witness :
  Process.effectiveTargetFormat (Sample.record 1000)
    (Card.handleProcessClick (Sample.record 1000) "Sunset" "Over the bay" (of_Z 80)).2
  = Some "png".
Proof.
  by destruct (card_asks_for_a_supported_format (Sample.record 1000)
                 "Sunset" "Over the bay" (of_Z 80)) as (_ & _ & _ & Hformat & _).
Defined.

Lemma replace_extension_without_dot name :
  JsString.includes "." name = false → Card.replace_extension name = None.
Proof.
  induction name as [|c name IH]; [done|].
  intros [Hc Hname]%orb_false_elim. simpl. rewrite Hc. simpl. by rewrite IH.
Qed.

Lemma is_extension_before_dot c base rest :
  Card.is_extension (String c (base +:+ String "." rest)) = false.
Proof.
  unfold Card.is_extension.
  assert (JsString.includes "." (base +:+ String "." rest) = true) as ->.
  { induction base as [|c' base IH]; simpl; [done|]. by rewrite IH, orb_true_r. }
  simpl. by rewrite !andb_false_r.
Qed.

Lemma replace_extension_last_dot base ext :
  ext ≠ "" → JsString.includes "." ext = false →
  Card.replace_extension (base +:+ String "." ext)
  = Some (base +:+ "-compressed" +:+ String "." ext).
Proof.
  intros Hne Hext. induction base as [|c base IH].
  - destruct ext as [|a ext]; [done|].
    change (Card.replace_extension ("" +:+ String "." (String a ext)))
      with (if Card.is_extension (String "." (String a ext))
            then Some ("-compressed" +:+ String "." (String a ext))
            else String "." <$> Card.replace_extension (String a ext)).
    unfold Card.is_extension. rewrite Hext. done.
  - change (Card.replace_extension (String c base +:+ String "." ext))
      with (if Card.is_extension (String c (base +:+ String "." ext))
            then Some ("-compressed" +:+ String c (base +:+ String "." ext))
            else String c <$> Card.replace_extension (base +:+ String "." ext)).
    rewrite is_extension_before_dot, IH. done.
Qed.

Lemma replace_extension_trailing_dot base :
  Card.replace_extension (base +:+ ".") = None.
Proof.
  induction base as [|c base IH]; [done|].
  change (Card.replace_extension (String c base +:+ "."))
    with (if Card.is_extension (String c (base +:+ String "." ""))
          then Some ("-compressed" +:+ String c (base +:+ "."))
          else String c <$> Card.replace_extension (base +:+ ".")).
  rewrite is_extension_before_dot, IH. done.
Qed.

(** X17: the name suggested for the download: [-compressed] is put before the
    last dot of the original name when something follows that dot; a
    name without a dot, or that ends with a dot, is suggested as it is. *)
Theorem download_name_keeps_the_extension file :
  (JsString.includes "." (ImageFile.originalName file) = false →
   Card.download_name file = ImageFile.originalName file) ∧
  (∀ base, ImageFile.originalName file = base +:+ "." →
   Card.download_name file = ImageFile.originalName file) ∧
  (∀ base ext,
     ImageFile.originalName file = base +:+ "." +:+ ext →
     ext ≠ "" → JsString.includes "." ext = false →
     Card.download_name file = base +:+ "-compressed." +:+ ext).
Proof.
  unfold Card.download_name. split_and!.
  - intros Hname. by rewrite replace_extension_without_dot.
  - intros base ->. by rewrite replace_extension_trailing_dot.
  - intros base ext -> Hne Hext.
    change ("." +:+ ext) with (String "." ext).
    by rewrite replace_extension_last_dot.
Qed.

Lemma download_name_keeps_the_extension_witness :
  Card.download_name (Sample.record 1000) = "sunset-compressed.png".
Proof.
  destruct (download_name_keeps_the_extension (Sample.record 1000)) as (_ & _ & Hext).
  apply (Hext "sunset" "png"); [reflexivity|done|reflexivity].
Defined.

(** ** The upload zone *)

(** The size limit of the later revision, as the source writes it. *)
Lemma four_and_a_half_megabytes :
  mul (mul (div (of_Z 9) (of_Z 2)) (of_Z 1024)) (of_Z 1024)
  = of_Z (Zone.max_size Zone.revision_4_5MB).
Proof. vm_compute. reflexivity. Qed.

Lemma revisions_within_the_ceiling :
  Zone.max_size Zone.revision_10MB ≤ Upload.MAX_FILE_SIZE_BYTES ∧
  Zone.max_size Zone.revision_4_5MB ≤ Upload.MAX_FILE_SIZE_BYTES.
Proof. by vm_compute. Qed.

Lemma zone_accepts_validated rev file :
  Zone.max_size rev ≤ Upload.MAX_FILE_SIZE_BYTES →
  zone_accepts rev file = true → validated file = true.
Proof.
  unfold zone_accepts, validated. intros Hmax [Htype Hsize]%andb_prop.
  apply andb_true_intro. split; [done|].
  apply Z.leb_le in Hsize. apply Z.leb_le. lia.
Qed.

(** The loop of [onDrop], from any state. *)
Lemma zone_loop rev files :
  ∀ st,
    let st' := fold_left (Zone.check_file rev) files st in
    Zone.formData st' = Zone.formData st ++ List.filter (zone_accepts rev) files ∧
    Zone.hasValidFiles st'
      = Zone.hasValidFiles st || existsb (zone_accepts rev) files ∧
    ∃ messages,
      Zone.effects st'
        = Zone.effects st ++ map (λ m, Zone.SetErrorMessage (Some m)) messages ∧
      (length messages + length (List.filter (zone_accepts rev) files)
       = length files)%nat.
Proof.
  induction files as [|file files IH]; intros st; simpl.
  { rewrite app_nil_r, orb_false_r. split_and!; [done|done|].
    exists []. by rewrite app_nil_r. }
  destruct (IH (Zone.check_file rev st file)) as (Hform & Hvalid & messages & Heff & Hlen).
  unfold Zone.check_file, zone_accepts in *.
  destruct (bool_decide_reflect (Upload.File.type file ∈ Zone.ACCEPTED_TYPES))
    as [Hin|Hout]; simpl in *.
  - destruct (Z.ltb_spec (Zone.max_size rev) (Upload.File.size file)) as [Hlarge|Hfits].
    + assert ((Upload.File.size file <=? Zone.max_size rev) = false) as ->
        by (apply Z.leb_gt; lia).
      simpl in *. split_and!; [done|done|].
      exists (Zone.too_large_message rev file :: messages).
      rewrite Heff, <- app_assoc. split; [done|simpl; lia].
    + assert ((Upload.File.size file <=? Zone.max_size rev) = true) as ->
        by (apply Z.leb_le; lia).
      simpl in *. rewrite Hform, Hvalid, <- app_assoc, orb_true_r. split_and!; [done|done|].
      exists messages. split; [done|simpl; lia].
  - split_and!; [done|done|].
    exists (Zone.unsupported_message file :: messages).
    rewrite Heff, <- app_assoc. split; [done|simpl; lia].
Qed.

(** The effects of [onDrop], by cases. *)
Lemma onDrop_cases rev w files :
  ∃ messages,
    (length messages + length (List.filter (zone_accepts rev) files)
     = length files)%nat ∧
    let said :=
      Zone.SetErrorMessage None :: map (λ m, Zone.SetErrorMessage (Some m)) messages in
    let sent := List.filter (zone_accepts rev) files in
    if existsb (zone_accepts rev) files then
      Zone.onDrop rev w files
        = said ++ Zone.PostUpload sent :: Zone.after_fetch w (Zone.fetch_upload w sent)
    else if (0 <? length files)%nat then
      Zone.onDrop rev w files
        = said ++ [Zone.SetErrorMessage
                     (Some "No valid files selected or files exceed limits.")]
    else Zone.onDrop rev w files = said.
Proof.
  unfold Zone.onDrop.
  destruct (zone_loop rev files
              {| Zone.formData := []; Zone.hasValidFiles := false;
                 Zone.effects := [Zone.SetErrorMessage None] |})
    as (Hform & Hvalid & messages & Heff & Hlen).
  simpl in *. exists messages. split; [done|]. cbv zeta.
  rewrite Hform, Hvalid, Heff.
  destruct (existsb (zone_accepts rev) files); simpl.
  - done.
  - destruct files; simpl; done.
Qed.

Lemma filter_nonempty {A} (P : A → bool) (l : list A) :
  existsb P l = true → List.filter P l ≠ [].
Proof.
  induction l as [|x l IH]; simpl; [done|].
  destruct (P x); [done|]. simpl. apply IH.
Qed.

Lemma no_request_among_messages (l : list (option string)) files :
  Zone.PostUpload files ∉ map Zone.SetErrorMessage l.
Proof.
  rewrite map_is_fmap. by intros (? & ? & ?)%list_elem_of_fmap.
Qed.

Lemma no_request_after_fetch w reply files :
  Zone.PostUpload files ∉ Zone.after_fetch w reply.
Proof.
  unfold Zone.after_fetch. intros Hin.
  repeat case_match; set_unfold in Hin; destruct_or?; done.
Qed.

(** X18: the zone sends a request exactly when some dropped file passes its
    test, and the request carries the files that pass, in their order;
    as the zone's limit is not above the ceiling of the upload handler
    (which holds for both revisions), every file it sends passes the
    validation of the handler. *)
Theorem zone_sends_only_valid_files rev w files :
  Zone.max_size rev ≤ Upload.MAX_FILE_SIZE_BYTES →
  let sent := List.filter (zone_accepts rev) files in
  ((∃ request, Zone.PostUpload request ∈ Zone.onDrop rev w files) ↔ sent ≠ []) ∧
  (∀ request, Zone.PostUpload request ∈ Zone.onDrop rev w files → request = sent) ∧
  (∀ file, file ∈ sent → ¬ rejected file).
Proof.
  intros Hmax sent.
  assert (∀ l : list string,
            map (λ m, Zone.SetErrorMessage (Some m)) l
            = map Zone.SetErrorMessage (map Some l)) as Hmap
    by (intros l; by rewrite map_map).
  assert (∀ request, Zone.PostUpload request ∈ Zone.onDrop rev w files →
                     request = sent ∧ sent ≠ []) as Hrequest.
  { intros request Hin.
    destruct (onDrop_cases rev w files) as (messages & _ & Hcases). cbv zeta in Hcases.
    rewrite Hmap in Hcases.
    change (Zone.SetErrorMessage None :: map Zone.SetErrorMessage (map Some messages))
      with (map Zone.SetErrorMessage (None :: map Some messages)) in Hcases.
    destruct (existsb (zone_accepts rev) files) eqn:Hsome.
    - rewrite Hcases in Hin.
      apply elem_of_app in Hin as [Hin|Hin];
        [by apply no_request_among_messages in Hin|].
      apply elem_of_cons in Hin as [[= ->]|Hin];
        [|by apply no_request_after_fetch in Hin].
      split; [done|]. by apply filter_nonempty.
    - destruct (0 <? length files)%nat; rewrite Hcases in Hin.
      + apply elem_of_app in Hin as [Hin|Hin];
          [by apply no_request_among_messages in Hin|].
        by apply list_elem_of_singleton in Hin.
      + by apply no_request_among_messages in Hin. }
  split_and!.
  - split.
    + intros [request Hin]. by destruct (Hrequest request Hin).
    + intros Hne. exists sent.
      destruct (onDrop_cases rev w files) as (messages & _ & Hcases). cbv zeta in Hcases.
      destruct (existsb (zone_accepts rev) files) eqn:Hsome.
      * rewrite Hcases. apply elem_of_app. right. by left.
      * destruct Hne. unfold sent. clear -Hsome.
        induction files as [|f files IH]; simpl in *; [done|].
        apply orb_false_elim in Hsome as [-> Hrest]. auto.
  - intros request Hin. by destruct (Hrequest request Hin).
  - intros file Hfile. apply validated_iff.
    apply list_elem_of_In, filter_In in Hfile as [_ Haccepts].
    by apply (zone_accepts_validated rev).
Qed.

Lemma zone_sends_only_valid_files_witness :
  ∃ request,
    Zone.PostUpload request ∈
      Zone.onDrop Zone.revision_4_5MB (zone_world UploadSample.world)
        [UploadSample.photo; UploadSample.animation; UploadSample.poster;
         UploadSample.logo] ∧
    request = [UploadSample.photo; UploadSample.logo].
Proof.
  destruct (zone_sends_only_valid_files Zone.revision_4_5MB
              (zone_world UploadSample.world)
              [UploadSample.photo; UploadSample.animation; UploadSample.poster;
               UploadSample.logo]) as (Hsends & Hsent & _).
  - by vm_compute.
  - destruct (proj2 Hsends) as [request Hin]; [discriminate|].
    exists request. split; [exact Hin | by apply Hsent].
Defined.

(** X19: when none of the dropped files passes the zone's test, nothing is
    sent: an empty drop only clears the error message, and a drop of
    files, after one message for each of them, ends with the message
    that no file was valid. *)
Theorem drop_without_valid_file rev w files :
  existsb (zone_accepts rev) files = false →
  ∃ messages,
    length messages = length files ∧
    Zone.onDrop rev w files =
      Zone.SetErrorMessage None
        :: map (λ m, Zone.SetErrorMessage (Some m)) messages
        ++ (if (0 <? length files)%nat
            then [Zone.SetErrorMessage
                    (Some "No valid files selected or files exceed limits.")]
            else []).
Proof.
  intros Hnone.
  destruct (onDrop_cases rev w files) as (messages & Hlen & Hcases). cbv zeta in Hcases.
  rewrite Hnone in Hcases. exists messages. split.
  - assert (List.filter (zone_accepts rev) files = []) as Hnil.
    { clear -Hnone. induction files as [|f files IH]; simpl in *; [done|].
      apply orb_false_elim in Hnone as [-> Hrest]. auto. }
    rewrite Hnil in Hlen. simpl in Hlen. lia.
  - destruct (0 <? length files)%nat; rewrite Hcases; [done|]. by rewrite app_nil_r.
Qed.

Lemma drop_without_valid_file_witness :
  Zone.onDrop Zone.revision_4_5MB (zone_world UploadSample.world)
    [UploadSample.poster]
  = [Zone.SetErrorMessage None;
     Zone.SetErrorMessage
       (Some "File too large: poster.png (11.00 MB). Max size is 4.5MB.");
     Zone.SetErrorMessage (Some "No valid files selected or files exceed limits.")].
Proof.
  destruct (drop_without_valid_file Zone.revision_4_5MB (zone_world UploadSample.world)
              [UploadSample.poster] eq_refl) as (messages & _ & _).
  reflexivity.
Defined.

(** A batch of validated files whose writes all succeed is answered 200
    with one record for each file. *)
Lemma upload_loop_all_stored server files :
  (∀ k pathname file options, ∃ blob,
     Upload.put server k pathname file options = inr blob) →
  Forall (λ f, validated f = true) files →
  ∀ st,
    Upload.errors (Upload.upload_loop server files st) = Upload.errors st ∧
    length (Upload.uploadedFilesInfo (Upload.upload_loop server files st))
    = (length (Upload.uploadedFilesInfo st) + length files)%nat.
Proof.
  intros Hput. unfold Upload.upload_loop.
  induction 1 as [|file files Hfile Hfiles IH]; intros st; simpl; [by rewrite Nat.add_0_r|].
  destruct (IH (Upload.upload_file server st file)) as [-> ->].
  destruct (upload_file_cases server st file) as [[Hval _]|[_ Hcase]]; [congruence|].
  cbv zeta in Hcase.
  destruct (Hput (length (Upload.puts st))
              (blob_path (Upload.nanoid server (length (Upload.puts st))) file)
              file (blob_options file)) as [blob Hblob].
  rewrite Hblob in Hcase. rewrite Hcase. simpl. rewrite length_app. simpl.
  split; [done|lia].
Qed.

(** X20: with the page behind the zone and the route behind the request: when
    some dropped file passes the zone's test and the store takes every
    write, the page ends with the new records merged into its list and
    with no error message, also when other files of the drop were
    skipped with a message. *)
Theorem successful_drop_on_page rev server files st :
  Zone.max_size rev ≤ Upload.MAX_FILE_SIZE_BYTES →
  existsb (zone_accepts rev) files = true →
  (∀ k pathname file options, ∃ blob,
     Upload.put server k pathname file options = inr blob) →
  ∃ records,
    Upload.POST server (List.filter (zone_accepts rev) files)
      = {| Upload.http_status := 200; Upload.body := Upload.ImageFilesBody records |} ∧
    length records = length (List.filter (zone_accepts rev) files) ∧
    Page.apply_effects st (Zone.onDrop rev (zone_world server) files)
      = Some {| Page.files := Client.handleFilesUploaded records (Page.files st);
                Page.errorMessage := None;
                Page.isProcessingAny := Page.isProcessingAny st |}.
Proof.
  intros Hmax Hsome Hput.
  set (sent := List.filter (zone_accepts rev) files).
  assert (sent ≠ []) as Hne by (by apply filter_nonempty).
  assert (Forall (λ f, validated f = true) sent) as Hvalid.
  { apply Forall_forall. intros f Hf%list_elem_of_In%filter_In.
    destruct Hf as [_ Hf]. by apply (zone_accepts_validated rev). }
  destruct (upload_loop_all_stored server sent Hput Hvalid Upload.initial_state)
    as [Herrors Hlength].
  set (final := Upload.upload_loop server sent Upload.initial_state) in *.
  assert (Upload.POST server sent
          = {| Upload.http_status := 200;
               Upload.body := Upload.ImageFilesBody (Upload.uploadedFilesInfo final) |})
    as Hpost.
  { unfold Upload.POST. rewrite POST_run_nonempty by done. cbn [fst]. fold final.
    by apply respond_cases. }
  exists (Upload.uploadedFilesInfo final). split_and!; [done|done|].
  destruct (onDrop_cases rev (zone_world server) files) as (messages & _ & Hcases).
  cbv zeta in Hcases. rewrite Hsome in Hcases. rewrite Hcases. fold sent.
  assert (Zone.after_fetch (zone_world server)
            (Zone.fetch_upload (zone_world server) sent)
          = [Zone.OnFilesUploaded (Upload.ImageFilesBody (Upload.uploadedFilesInfo final))])
    as -> by (unfold zone_world, upload_reply; cbn [Zone.fetch_upload]; by rewrite Hpost).
  generalize (Upload.uploadedFilesInfo final). intros records.
  clear. revert st.
  assert (∀ st : Page.State,
            Page.apply_effects st (map (λ m, Zone.SetErrorMessage (Some m)) messages)
            = Some {| Page.files := Page.files st;
                      Page.errorMessage :=
                        default (Page.errorMessage st) (Some <$> last messages);
                      Page.isProcessingAny := Page.isProcessingAny st |}) as Hsaid.
  { induction messages as [|m messages IH]; intros st; simpl; [by destruct st|].
    rewrite IH. simpl. destruct messages as [|m' l]; [done|].
    change (last (m :: m' :: l)) with (last (m' :: l)).
    destruct (last (m' :: l)) eqn:Hlast; [done|]. by apply last_None in Hlast. }
  intros st.
  assert (∀ (l k : list Zone.Effect) s s',
            Page.apply_effects s l = Some s' →
            Page.apply_effects s (l ++ k) = Page.apply_effects s' k) as Happ.
  { induction l as [|e l IH]; intros k s s'; simpl; [by intros [= ->]|].
    destruct (Page.apply_effect s e); [apply IH|done]. }
  change (Zone.SetErrorMessage None
          :: map (λ m, Zone.SetErrorMessage (Some m)) messages)
    with ([Zone.SetErrorMessage None]
          ++ map (λ m, Zone.SetErrorMessage (Some m)) messages).
  rewrite <- app_assoc. simpl. rewrite (Happ _ _ _ _ (Hsaid _)). done.
Qed.

Lemma successful_drop_on_page_witness :
  Page.apply_effects PageSample.state
    (Zone.onDrop Zone.revision_4_5MB (zone_world UploadSample.world)
       [UploadSample.poster; UploadSample.logo])
  = Some {| Page.files :=
              [PageSample.waiting; PageSample.busy;
               uploaded_record UploadSample.logo
                 (PutBlobResult.mk "https://blob.example/uploads/id0.png"
                    "uploads/id0.png")];
            Page.errorMessage := None;
            Page.isProcessingAny := true |}.
Proof.
  destruct (successful_drop_on_page Zone.revision_4_5MB UploadSample.world
              [UploadSample.poster; UploadSample.logo] PageSample.state)
    as (records & Hpost & _ & Hpage).
  - by vm_compute.
  - reflexivity.
  - intros. eexists. reflexivity.
  - rewrite Hpage. injection Hpost as <-. vm_compute. reflexivity.
Defined.

(** X21: what the zone does with the answer of the upload route.  An answer
    400 ends in the error message that the route sent.  Any other answer
    is handed to [onFilesUploaded] as it is: for a partial success this
    is the object with the records and the upload errors, not a list of
    records, and the zone sets no message for those errors (the only
    message that can follow is that of a value thrown by the callback). *)
Theorem zone_after_the_answer rev w server files :
  Zone.fetch_upload w = upload_reply server →
  existsb (zone_accepts rev) files = true →
  let sent := List.filter (zone_accepts rev) files in
  ∃ messages,
    Zone.onDrop rev w files =
      (Zone.SetErrorMessage None :: map (λ m, Zone.SetErrorMessage (Some m)) messages)
      ++ Zone.PostUpload sent ::
         match Upload.body (Upload.POST server sent) with
         | Upload.ErrorBody error => [Zone.SetErrorMessage (Some error)]
         | answer =>
             Zone.OnFilesUploaded answer ::
             match Zone.onFilesUploaded_throws w answer with
             | Some thrown => [Zone.SetErrorMessage (Some (Zone.message_of thrown))]
             | None => []
             end
         end ∧
    (Upload.http_status (Upload.POST server sent) = 400 ↔
     ∃ error, Upload.body (Upload.POST server sent) = Upload.ErrorBody error) ∧
    (Upload.http_status (Upload.POST server sent) = 207 ↔
     ∃ records errors,
       Upload.body (Upload.POST server sent) = Upload.MultiStatusBody records errors).
Proof.
  intros Hfetch Hsome sent.
  assert (sent ≠ []) as Hne by (by apply filter_nonempty).
  destruct (onDrop_cases rev w files) as (messages & _ & Hcases).
  cbv zeta in Hcases. rewrite Hsome in Hcases. fold sent in Hcases.
  exists messages. rewrite Hcases, Hfetch. unfold upload_reply, Zone.after_fetch.
  cbn [Zone.HttpResponse.ok Zone.HttpResponse.json].
  unfold Upload.POST. rewrite POST_run_nonempty by done. cbn [fst].
  unfold Upload.respond.
  set (st := Upload.upload_loop server sent Upload.initial_state).
  destruct ((length (Upload.uploadedFilesInfo st) =? 0)%nat
            && (0 <? length (Upload.errors st))%nat);
    [|destruct (0 <? length (Upload.errors st))%nat]; simpl.
  - split_and!; [done| |]; split; try done; eauto. by intros (? & ? & ?).
  - split_and!; [done| |]; split; try done; eauto. by intros [? ?].
  - split_and!; [done| |]; split; try done. by intros [? ?]. by intros (? & ? & ?).
Qed.

Lemma zone_after_the_answer_witness :
  ∃ messages,
    Zone.onDrop Zone.revision_10MB (zone_world UploadSample.world_store_down)
      [UploadSample.poster; UploadSample.logo]
    = (Zone.SetErrorMessage None :: map (λ m, Zone.SetErrorMessage (Some m)) messages)
      ++ [Zone.PostUpload [UploadSample.logo];
          Zone.SetErrorMessage
            (Some "Upload failed. Errors: Failed to upload logo.png.")].
Proof.
  destruct (zone_after_the_answer Zone.revision_10MB
              (zone_world UploadSample.world_store_down)
              UploadSample.world_store_down
              [UploadSample.poster; UploadSample.logo] eq_refl eq_refl)
    as (messages & Hdrop & _).
  exists messages. exact Hdrop.
Defined.
